(** * pwndbg: per-thread stack ranges and stack-canary detection

    A shallow embedding of [pwndbg/gdblib/stack.py] and
    [pwndbg/commands/canary.py].  Python integers are unbounded, so they
    are modelled by [Z] and the bit operations by [Z.land], [Z.lxor] and
    [Z.lnot]; module globals and the debugger's selected thread are
    threaded explicitly through a [State]; exceptions are values of
    [Exn]. *)

From Stdlib Require Import ZArith Lia Bool.
From stdpp Require Import gmap strings list pretty.

Local Open Scope Z_scope.

(** ** Exceptions and fallible results *)

Inductive Exn : Type :=
  | GdbError        (* gdb.error: e.g. switching to a thread that is gone *)
  | MemoryError     (* gdb.MemoryError: unreadable address *)
  | AttributeError  (* attribute access on None *)
  | TypeError.      (* comparing None with an int *)

Inductive Res (A : Type) : Type :=
  | Ok (a : A)
  | Raise (e : Exn).
Arguments Ok {A} a.
Arguments Raise {A} e.

(** ** Architecture metadata ([pwndbg.gdblib.arch]) *)

Record Arch : Type := mkArch {
  ptrsize : Z;
  ptrmask : Z
}.

(** The pointer mask of a real architecture is all ones over the pointer
    width: [(1 << 8 * ptrsize) - 1]. *)
Definition arch_wf (a : Arch) : Prop :=
  0 < ptrsize a /\ ptrmask a = 2 ^ (8 * ptrsize a) - 1.

Definition amd64 : Arch := mkArch 8 0xFFFFFFFFFFFFFFFF.
Definition i386 : Arch := mkArch 4 0xFFFFFFFF.

(** ** Pages ([pwndbg.lib.memory.Page]) *)

Record Page : Type := mkPage {
  vaddr : Z;
  memsz : Z;
  flags : Z;
  offset : Z;
  objfile : option string
}.

Definition set_objfile (o : option string) (p : Page) : Page :=
  mkPage (vaddr p) (memsz p) (flags p) (offset p) o.

(** [page.memsz += page.vaddr - low; page.vaddr = low] *)
Definition extend_down (low : Z) (p : Page) : Page :=
  mkPage low (memsz p + (vaddr p - low)) (flags p) (offset p) (objfile p).

Definition page_start (p : Page) : Z := vaddr p.
Definition page_end (p : Page) : Z := vaddr p + memsz p.

(** Modelled from the spec: [Page.__contains__] lives in
    [pwndbg/lib/memory.py]; containment is [start <= addr < start + size]. *)
Definition page_contains (p : Page) (addr : Z) : bool :=
  (page_start p <=? addr) && (addr <? page_end p).

(** ** The canary command ([pwndbg/commands/canary.py]) *)

(** [pwndbg.gdblib.stack.get]: the command asks the stack module for the
    stacks of all threads under this name.  The module defines [stacks],
    [nx], [find], [find_upper_stack_boundary], [update], [current],
    [clear], [is_executable] and [find_addr_on_stack], and no [get]: the
    attribute lookup raises AttributeError. *)
Definition stack_get : Res (list (Z * Page)) := Raise AttributeError.

Module Canary.

(** The collaborators the command consults. *)
Record Env : Type := mkEnv {
  arch : Arch;
  auxv : gmap string Z;                              (* pwndbg.auxv.get() *)
  pvoid : Z -> Res Z;                                (* pwndbg.gdblib.memory.pvoid *)
  pack : Z -> Res (list Byte.byte);                  (* pwndbg.gdblib.arch.pack *)
  search : list Byte.byte -> Z -> Z -> Res (list Z)  (* list(pwndbg.search.search(..)) *)
}.

Definition canary_value (e : Env) : Res (option Z * option Z) :=
  match auxv e !! "AT_RANDOM"%string with
  | None => Ok (None, None)
  | Some at_random =>
      match pvoid e at_random with
      | Raise x => Raise x
      | Ok global_canary =>
          let global_canary := Z.land global_canary (Z.lxor (ptrmask (arch e)) 0xFF) in
          Ok (Some global_canary, Some at_random)
      end
  end.

(** What the command prints, in order. *)
Inductive Output : Type :=
  | ErrorNoAtRandom              (* "Couldn't find AT_RANDOM - can't display canary." *)
  | NoticeAtRandom (at_random : Z)
  | NoticeCanary (global_canary : Z)
  | SuccessThread (thread : Z)   (* "Thread ..: Found valid canaries on stack." *)
  | Telescope (address : Z)      (* telescope(address=.., count=1) *)
  | WarnNoCanaries               (* "No valid canaries found on the stacks." *)
  | WarnHidden.                  (* "Additional results hidden. Use --all to see them." *)

(** The locals the loop of [canary] carries, and the output so far. *)
Record Loop : Type := mkLoop {
  found_canaries : bool;
  results_hidden : bool;
  printed : list Output
}.

Definition default_num_canaries_to_display : nat := 2.

Definition num_canaries_to_display (all : bool) (stack_canaries : list Z) : nat :=
  let n := length stack_canaries in
  if negb all then Nat.min default_num_canaries_to_display n else n.

(** One iteration of [for thread in thread_stacks]; a failing search
    ends the command with what has been printed so far. *)
Definition canary_thread (e : Env) (all : bool) (global_canary_packed : list Byte.byte)
    (st : Loop) (entry : Z * Page) : Loop * option Exn :=
  let '(thread, thread_stack) := entry in
  match search e global_canary_packed (page_start thread_stack) (page_end thread_stack) with
  | Raise x => (st, Some x)
  | Ok [] => (st, None)
  | Ok stack_canaries =>
      let n := num_canaries_to_display all stack_canaries in
      (mkLoop true
              (if (n <? length stack_canaries)%nat then true else results_hidden st)
              (printed st ++ SuccessThread thread :: map Telescope (take n stack_canaries)),
       None)
  end.

Fixpoint canary_loop (e : Env) (all : bool) (global_canary_packed : list Byte.byte)
    (thread_stacks : list (Z * Page)) (st : Loop) : Loop * option Exn :=
  match thread_stacks with
  | [] => (st, None)
  | entry :: rest =>
      match canary_thread e all global_canary_packed st entry with
      | (st', None) => canary_loop e all global_canary_packed rest st'
      | (st', Some x) => (st', Some x)
      end
  end.

(** [canary(all)]: everything printed, and the exception that ended the
    command, if any. *)
Definition canary (e : Env) (all : bool) : list Output * option Exn :=
  match canary_value e with
  | Raise x => ([], Some x)
  | Ok (Some global_canary, Some at_random) =>
      let out := [NoticeAtRandom at_random; NoticeCanary global_canary] in
      match pack e global_canary with
      | Raise x => (out, Some x)
      | Ok global_canary_packed =>
          match stack_get with
          | Raise x => (out, Some x)
          | Ok thread_stacks =>
              match canary_loop e all global_canary_packed thread_stacks
                                (mkLoop false false out) with
              | (st, Some x) => (printed st, Some x)
              | (st, None) =>
                  let out := printed st in
                  let out := if found_canaries st then out else out ++ [WarnNoCanaries] in
                  let out := if results_hidden st then out ++ [WarnHidden] else out in
                  (out, None)
              end
          end
      end
  | Ok _ => ([ErrorNoAtRandom], None)
  end.

(** The loop's outcome said per thread: the part of a thread's matches
    that is displayed, and the lines a thread contributes. *)
Definition displayed (all : bool) (matches : list Z) : list Z :=
  if all then matches else take 2 matches.

Definition thread_report (all : bool) (tm : Z * list Z) : list Output :=
  match snd tm with
  | [] => []
  | _ :: _ => SuccessThread (fst tm) :: map Telescope (displayed all (snd tm))
  end.

Definition has_match (tm : Z * list Z) : bool :=
  match snd tm with [] => false | _ :: _ => true end.

Definition truncated (all : bool) (tm : Z * list Z) : bool :=
  (length (displayed all (snd tm)) <? length (snd tm))%nat.

(** [tms] lists, thread by thread, what the search finds on each stack
    of [thread_stacks]. *)
Definition searches_give (e : Env) (packed : list Byte.byte)
    (thread_stacks : list (Z * Page)) (tms : list (Z * list Z)) : Prop :=
  Forall2 (fun (entry : Z * Page) (tm : Z * list Z) =>
             fst tm = fst entry
             /\ search e packed (page_start (snd entry)) (page_end (snd entry))
                = Ok (snd tm))
          thread_stacks tms.

End Canary.

(** ** The stack range tracker ([pwndbg/gdblib/stack.py]) *)

Module Stack.

(** A gdb thread object: its number, its [ptid] triple and whether
    [switch()] still succeeds on it. *)
Record Thread : Type := mkThread {
  thread_num : Z;
  thread_ptid : Z * Z * Z;
  thread_valid : bool
}.

(** What the host debugger and the other pwndbg modules answer. *)
Record Host : Type := mkHost {
  threads : list Thread;                   (* gdb.selected_inferior().threads() *)
  read_sp : option Thread -> Res (option Z); (* regs.sp, given the selected thread *)
  readable : Z -> bool;                    (* memory.read(addr, 1) succeeds *)
  linux : bool;                            (* pwndbg.gdblib.abi.linux *)
  phdrs : list Z;                          (* p_type of each program header *)
  vmmap_find : Z -> option Page;           (* pwndbg.gdblib.vmmap.find *)
  mem_u : Z -> Res Z;                      (* pwndbg.gdblib.memory.u *)
  arch : Arch
}.

(** The module globals [stacks] and [nx], and gdb's selected thread.
    [stacks] is a Python dict: an association list in insertion order
    with unique keys. *)
Record State : Type := mkState {
  stacks : list (Z * Z * Z * Page);
  nx : bool;
  selected : option Thread
}.

Definition set_stacks (d : list (Z * Z * Z * Page)) (s : State) : State :=
  mkState d (nx s) (selected s).
Definition set_nx (b : bool) (s : State) : State :=
  mkState (stacks s) b (selected s).
Definition set_selected (t : option Thread) (s : State) : State :=
  mkState (stacks s) (nx s) t.

(** [d.get(k, None)] *)
Fixpoint dict_get (k : Z * Z * Z) (d : list (Z * Z * Z * Page)) : option Page :=
  match d with
  | [] => None
  | (k', p) :: d' => if bool_decide (k' = k) then Some p else dict_get k d'
  end.

(** [d[k] = p]: an existing key keeps its position, a new one goes last. *)
Fixpoint dict_set (k : Z * Z * Z) (p : Page) (d : list (Z * Z * Z * Page))
  : list (Z * Z * Z * Page) :=
  match d with
  | [] => [(k, p)]
  | (k', p') :: d' =>
      if bool_decide (k' = k) then (k, p) :: d' else (k', p') :: dict_set k p d'
  end.

(** [d.values()] *)
Definition dict_values (d : list (Z * Z * Z * Page)) : list Page := map snd d.

(** Modelled from the spec: [pwndbg.gdblib.memory.PAGE_SIZE] is not in the
    sources at hand; one page, the [0x1000] that [update] itself uses. *)
Definition PAGE_SIZE : Z := 0x1000.

Definition PT_GNU_STACK : Z := 0x6474E551.

(** Modelled from the spec: [pwndbg.lib.memory.page_align] is not in the
    sources at hand; it aligns an address down to a page boundary. *)
Definition page_align (addr : Z) : Z := Z.land addr (Z.lnot (PAGE_SIZE - 1)).

(** Modelled from the spec: [pwndbg.gdblib.memory.find_upper_boundary] is
    not in the sources at hand.  It page-aligns the address and probes
    forward one page at a time, at most [max_pages] times, asking whether
    the page is backed by readable memory; the first unmapped page's
    start is the boundary, and when the probes run out the last probed
    boundary is returned. *)
Fixpoint probe_upward (ok : Z -> bool) (n : nat) (addr : Z) : Z :=
  match n with
  | O => addr
  | S n' => if ok addr then probe_upward ok n' (addr + PAGE_SIZE) else addr
  end.

Definition find_upper_boundary (h : Host) (addr max_pages : Z) : Z :=
  probe_upward (readable h) (Z.to_nat max_pages) (page_align addr).

Definition find_upper_stack_boundary (h : Host) (stack_ptr max_pages : Z) : Z :=
  let stack_ptr := page_align stack_ptr in
  if negb (linux h) then stack_ptr + PAGE_SIZE
  else find_upper_boundary h stack_ptr max_pages.

(** Some program header has type PT_GNU_STACK. *)
Definition has_gnu_stack (h : Host) : bool :=
  existsb (fun p_type => p_type =? PT_GNU_STACK) (phdrs h).

(** [is_executable]: sets the global [nx] in the loop over the program
    headers and returns [not nx]. *)
Definition is_executable (h : Host) (s : State) : bool * State :=
  let nx' := fold_left (fun nx p_type => if p_type =? PT_GNU_STACK then true else nx)
                       (phdrs h) false in
  (negb nx', set_nx nx' s).

(** [thread.switch()] *)
Definition switch (t : Thread) (s : State) : State * option Exn :=
  if thread_valid t then (set_selected (Some t) s, None) else (s, Some GdbError).

(** [regs.sp] for whichever thread is selected. *)
Definition regs_sp (h : Host) (s : State) : Res (option Z) := read_sp h (selected s).

(** The relabelling branch, taken when [page.objfile is None]. *)
Definition stack_label (ptid : Z * Z * Z) : string :=
  let '(pid, tid, _) := ptid in
  if bool_decide (pid = tid) then "[stack]"%string
  else ("[stack:" +:+ pretty tid +:+ "]")%string.

(** The value of the page that the [page is None] branch builds for a
    thread with stack pointer [sp], with the outcome of [is_executable]
    written through [has_gnu_stack]. *)
Definition new_page (h : Host) (sp : Z) : Page :=
  let start := Z.land sp (Z.lnot 0xFFF) - 0x1000 in
  let stop := find_upper_stack_boundary h sp 1024 in
  mkPage start (stop - start) (if has_gnu_stack h then 6 else 7) 0
         (Some "[stack]"%string).

(** One iteration of the loop of [update]. *)
Definition update_thread (h : Host) (t : Thread) (s : State) : State * option Exn :=
  match switch t s with
  | (s, Some e) => (s, Some e)
  | (s, None) =>
      match regs_sp h s with
      | Raise e => (s, Some e)
      | Ok None => (s, None)
      | Ok (Some sp) =>
          if sp =? 0 then (s, None)
          else
            let sp_low := Z.land sp (Z.lnot 0xFFF) in
            let sp_low := sp_low - 0x1000 in
            match dict_get (thread_ptid t) (stacks s) with
            | None =>
                let start := sp_low in
                let stop := find_upper_stack_boundary h sp 1024 in
                let '(exec, s) := is_executable h s in
                let page := mkPage start (stop - start) (if negb exec then 6 else 7) 0
                                   (Some "[stack]"%string) in
                (set_stacks (dict_set (thread_ptid t) page (stacks s)) s, None)
            | Some page =>
                let page :=
                  match objfile page with
                  | None => set_objfile (Some (stack_label (thread_ptid t))) page
                  | Some _ => page
                  end in
                let low := Z.min (vaddr page) sp_low in
                let page := if negb (low =? vaddr page) then extend_down low page else page in
                (set_stacks (dict_set (thread_ptid t) page (stacks s)) s, None)
            end
      end
  end.

Fixpoint update_loop (h : Host) (ts : list Thread) (s : State) : State * option Exn :=
  match ts with
  | [] => (s, None)
  | t :: ts' =>
      match update_thread h t s with
      | (s', None) => update_loop h ts' s'
      | (s', Some e) => (s', Some e)
      end
  end.

(** [update]: the loop under [try], the restore under [finally].  An
    exception raised by the restore replaces the pending one. *)
Definition update (h : Host) (s : State) : State * option Exn :=
  let curr_thread := selected s in
  let '(s', e) := update_loop h (threads h) s in
  match curr_thread with
  | Some c =>
      match switch c s' with
      | (s'', None) => (s'', e)
      | (s'', Some e') => (s'', Some e')
      end
  | None => (s', e)
  end.

(** A process lifetime as the tracker sees it: a run of [update] calls.
    Before each call the host may have changed (threads, registers,
    mappings) and the user may have selected another thread; a call that
    raises leaves behind whatever it has recorded so far. *)
Fixpoint updates (calls : list (Host * option Thread)) (s : State) : State :=
  match calls with
  | [] => s
  | (h, sel) :: calls' => updates calls' (fst (update h (set_selected sel s)))
  end.

(** [find]: the first page of [stacks.values()] containing the address,
    after an [update] when no stack is known. *)
Definition first_containing (address : Z) (pages : list Page) : option Page :=
  List.find (fun stack => page_contains stack address) pages.

Definition find (h : Host) (s : State) (address : Z) : State * Res (option Page) :=
  let '(s, e) := match stacks s with
                 | [] => update h s
                 | _ :: _ => (s, None)
                 end in
  match e with
  | Some x => (s, Raise x)
  | None => (s, Ok (first_containing address (dict_values (stacks s))))
  end.

(** [clear] *)
Definition clear (s : State) : State := mkState [] false (selected s).

(** [find_addr_on_stack]: the [while] loop, with the number of
    iterations left as fuel; [None] means the fuel ran out. *)
Fixpoint scan_stack (u : Z -> Res Z) (addr start stop ptrsize : Z) (fuel : nat) (sp : Z)
  : option (Res Z) :=
  if (start <=? sp) && (sp <? stop) then
    match fuel with
    | O => None
    | S fuel' =>
        match u sp with
        | Raise e => Some (Raise e)
        | Ok value =>
            if value =? addr then Some (Ok sp)
            else scan_stack u addr start stop ptrsize fuel' (sp + ptrsize)
        end
    end
  else Some (Ok 0).

(** Every slot before the [k]-th one above [sp] is readable and holds
    something other than [addr]. *)
Definition no_match_before (u : Z -> Res Z) (addr ptrsize sp : Z) (k : nat) : Prop :=
  forall j : nat, (j < k)%nat ->
    exists v, u (sp + Z.of_nat j * ptrsize) = Ok v /\ v <> addr.

(** Enough iterations to walk from [sp] to [stop] in steps of [ptrsize]. *)
Definition scan_fuel (sp stop ptrsize : Z) : nat :=
  Z.to_nat ((stop - sp) / ptrsize + 1).

Definition find_addr_on_stack (h : Host) (s : State) (addr : Z) : option (Res Z) :=
  match regs_sp h s with
  | Raise e => Some (Raise e)
  | Ok None => Some (Raise TypeError)
  | Ok (Some sp) =>
      match vmmap_find h sp with
      | None => Some (Raise AttributeError)
      | Some stack =>
          let start := vaddr stack in
          let stop := start + memsz stack in
          let ptrsize := ptrsize (arch h) in
          scan_stack (mem_u h) addr start stop ptrsize (scan_fuel sp stop ptrsize) sp
      end
  end.

End Stack.

(** ** Relations between successive contents of [stacks] *)

(** [q] is [p] left alone or extended downward: the upper bound and the
    permissions stay, the start does not rise, a label once set stays. *)
Definition grown (p q : Page) : Prop :=
  vaddr q <= vaddr p
  /\ vaddr q + memsz q = vaddr p + memsz p
  /\ flags q = flags p
  /\ (forall label, objfile p = Some label -> objfile q = Some label).

(** Every tracked page of [d] is still tracked in [d'], grown. *)
Definition dict_grown (d d' : list (Z * Z * Z * Page)) : Prop :=
  forall k p, Stack.dict_get k d = Some p ->
    exists q, Stack.dict_get k d' = Some q /\ grown p q.


(** Every page of [d] whose key [d0] did not have carries the permission
    value derived from the program headers and the label given at
    creation. *)
Definition fresh_ok (h : Stack.Host) (d0 d : list (Z * Z * Z * Page)) : Prop :=
  forall k p, Stack.dict_get k d0 = None -> Stack.dict_get k d = Some p ->
    flags p = (if Stack.has_gnu_stack h then 6 else 7)
    /\ objfile p = Some "[stack]"%string.

(** No address lies in two of the pages. *)
Fixpoint pages_disjoint (pages : list Page) : Prop :=
  match pages with
  | [] => True
  | p :: rest =>
      (forall q a, In q rest -> page_contains p a = true -> page_contains q a = false)
      /\ pages_disjoint rest
  end.

(** ** Further operations of the tracker and vocabulary for its behaviour *)

(** [current]: [find(regs.sp)].  The register is read first, for the
    thread selected at the call; [find] then runs as above.  When the
    register is unavailable the address is [None]: it is compared with a
    page's bounds only if some page is tracked, and that comparison
    raises TypeError. *)
Definition current (h : Stack.Host) (s : Stack.State) : Stack.State * Res (option Page) :=
  match Stack.regs_sp h s with
  | Raise e => (s, Raise e)
  | Ok (Some sp) => Stack.find h s sp
  | Ok None =>
      let '(s, e) := match Stack.stacks s with
                     | [] => Stack.update h s
                     | _ :: _ => (s, None)
                     end in
      match e with
      | Some x => (s, Raise x)
      | None =>
          match Stack.stacks s with
          | [] => (s, Ok None)
          | _ :: _ => (s, Raise TypeError)
          end
      end
  end.

(** What visiting a thread raises, if anything: [switch()] on a thread
    that is gone, or the register read. *)
Definition thread_error (h : Stack.Host) (t : Stack.Thread) : option Exn :=
  if Stack.thread_valid t then
    match Stack.read_sp h (Some t) with
    | Raise e => Some e
    | Ok _ => None
    end
  else Some GdbError.

(** The failure of the first thread, in iteration order, that has one. *)
Fixpoint first_error (h : Stack.Host) (ts : list Stack.Thread) : option Exn :=
  match ts with
  | [] => None
  | t :: ts' =>
      match thread_error h t with
      | Some e => Some e
      | None => first_error h ts'
      end
  end.

(** The thread has no usable stack pointer: the register is unavailable
    or zero. *)
Definition no_stack_pointer (h : Stack.Host) (t : Stack.Thread) : Prop :=
  Stack.read_sp h (Some t) = Ok None \/ Stack.read_sp h (Some t) = Ok (Some 0).

(** [qs] holds the pages of [ps] at the same positions, each left alone
    or extended downward, possibly followed by new pages. *)
Definition pages_grown (ps qs : list Page) : Prop :=
  exists kept new, qs = kept ++ new /\ Forall2 grown ps kept.

(** How the [nx] global of [s1] relates to that of an earlier [s0]:
    unchanged while no new thread has been recorded, set from the program
    headers once one has. *)
Definition nx_follows (h : Stack.Host) (s0 s1 : Stack.State) : Prop :=
  (Stack.nx s1 = Stack.nx s0
   /\ forall k, Stack.dict_get k (Stack.stacks s0) = None ->
                Stack.dict_get k (Stack.stacks s1) = None)
  \/ (Stack.nx s1 = Stack.has_gnu_stack h
      /\ exists k, Stack.dict_get k (Stack.stacks s0) = None
                   /\ Stack.dict_get k (Stack.stacks s1) <> None).

(** * Sample inputs *)

Module Samples.

(** An amd64 process whose AT_RANDOM block starts with 0x41..41AB. *)
Definition env_at_random : Canary.Env :=
  Canary.mkEnv amd64 {[ "AT_RANDOM"%string := 0x7ffe1000 ]}
               (fun _ => Ok 0x41414141414141AB)
               (fun _ => Ok []) (fun _ _ _ => Ok []).

Definition main_thread : Stack.Thread := Stack.mkThread 1 (4242, 4242, 0) true.
Definition worker_thread : Stack.Thread := Stack.mkThread 2 (4242, 4243, 0) true.

Definition in_stack_area (a : Z) : bool := (0x7ffc0000 <=? a) && (a <? 0x7ffd8000).

(** A Linux process with two threads whose stack pointers lie in one
    readable area [0x7ffc0000, 0x7ffd8000); the word 0xdeadbeef is stored
    at 0x7ffd0020, zeros elsewhere. *)
Definition host_two_threads : Stack.Host :=
  Stack.mkHost
    [main_thread; worker_thread]
    (fun sel => match sel with
                | Some t => if Stack.thread_num t =? 1 then Ok (Some 0x7ffd0010)
                            else Ok (Some 0x7ffd2010)
                | None => Ok None
                end)
    in_stack_area
    true
    [1; 0x6474E551]
    (fun a => if in_stack_area a
              then Some (mkPage 0x7ffc0000 0x18000 6 0 (Some "[stack]"%string))
              else None)
    (fun a => if negb (in_stack_area a) then Raise MemoryError
              else if a =? 0x7ffd0020 then Ok 0xdeadbeef else Ok 0)
    amd64.

(** The same process later on: the main thread has pushed three more
    pages of frames. *)
Definition host_deeper : Stack.Host :=
  Stack.mkHost
    (Stack.threads host_two_threads)
    (fun sel => match sel with
                | Some t => if Stack.thread_num t =? 1 then Ok (Some 0x7ffcd010)
                            else Ok (Some 0x7ffd2010)
                | None => Ok None
                end)
    (Stack.readable host_two_threads)
    (Stack.linux host_two_threads)
    (Stack.phdrs host_two_threads)
    (Stack.vmmap_find host_two_threads)
    (Stack.mem_u host_two_threads)
    (Stack.arch host_two_threads).

(** Nothing tracked yet, the main thread selected. *)
Definition fresh_state : Stack.State := Stack.mkState [] false (Some main_thread).

(** gdb with live threads but none selected (the selected one has exited). *)
Definition no_thread_selected : Stack.State := Stack.mkState [] false None.

(** A thread whose stack pointer has been pivoted into unmapped memory. *)
Definition host_pivoted : Stack.Host :=
  Stack.mkHost
    [main_thread]
    (fun _ => Ok (Some 0x50000010))
    in_stack_area
    true
    [1; 0x6474E551]
    (fun _ => None)
    (fun _ => Raise MemoryError)
    amd64.

(** The process has exited: no threads are left. *)
Definition host_exited : Stack.Host :=
  Stack.mkHost [] (fun _ => Ok None) (fun _ => false) true []
               (fun _ => None) (fun _ => Raise MemoryError) amd64.

(** What [update] records for [host_two_threads]. *)
Definition main_page : Page := mkPage 0x7ffcf000 0x9000 6 0 (Some "[stack]"%string).
Definition worker_page : Page := mkPage 0x7ffd1000 0x7000 6 0 (Some "[stack]"%string).
Definition tracked_two : Stack.State :=
  Stack.mkState [((4242, 4242, 0), main_page); ((4242, 4243, 0), worker_page)]
                true (Some main_thread).

(** The canary pattern lies at five places on the first thread's stack
    and nowhere on the second's. *)
Definition env_five_matches : Canary.Env :=
  Canary.mkEnv amd64 {[ "AT_RANDOM"%string := 0x7ffe1000 ]}
               (fun _ => Ok 0x41414141414141AB)
               (fun _ => Ok [])
               (fun _ start _ =>
                  if start =? 0x7ffcf000
                  then Ok [0x7ffd0018; 0x7ffd0058; 0x7ffd0098; 0x7ffd00d8; 0x7ffd0118]
                  else Ok []).

Definition two_thread_stacks : list (Z * Page) :=
  [(1, main_page); (2, mkPage 0x7fe00000 0x8000 6 0 (Some "[stack]"%string))].

(** The worker thread has exited under the debugger's feet: switching
    to it fails.  A third thread comes after it. *)
Definition gone_thread : Stack.Thread := Stack.mkThread 2 (4242, 4243, 0) false.
Definition late_thread : Stack.Thread := Stack.mkThread 3 (4242, 4244, 0) true.

Definition host_thread_gone : Stack.Host :=
  Stack.mkHost
    [main_thread; gone_thread; late_thread]
    (Stack.read_sp host_two_threads)
    (Stack.readable host_two_threads)
    (Stack.linux host_two_threads)
    (Stack.phdrs host_two_threads)
    (Stack.vmmap_find host_two_threads)
    (Stack.mem_u host_two_threads)
    (Stack.arch host_two_threads).

(** A kernel target: the only thread reports a zero stack pointer. *)
Definition host_kernel : Stack.Host :=
  Stack.mkHost [main_thread] (fun _ => Ok (Some 0)) (fun _ => false) false []
               (fun _ => None) (fun _ => Raise MemoryError) amd64.

(** The memory map reports the stack up to 0x7ffe0000 although reads
    fail from 0x7ffd8000 on; the stack pointer is two slots below that. *)
Definition host_short_read : Stack.Host :=
  Stack.mkHost
    [main_thread]
    (fun _ => Ok (Some 0x7ffd7ff0))
    in_stack_area
    true
    [1; 0x6474E551]
    (fun _ => Some (mkPage 0x7ffc0000 0x20000 6 0 (Some "[stack]"%string)))
    (fun a => if in_stack_area a then Ok 0 else Raise MemoryError)
    amd64.

(** The memory map answers with a page that does not hold the stack
    pointer. *)
Definition host_stale_map : Stack.Host :=
  Stack.mkHost
    [main_thread]
    (fun _ => Ok (Some 0x7ffd0010))
    in_stack_area
    true
    [1; 0x6474E551]
    (fun _ => Some (mkPage 0x1000 0x1000 6 0 None))
    (fun _ => Raise MemoryError)
    amd64.

(** The same process with another low byte in the AT_RANDOM block. *)
Definition env_other_low_byte : Canary.Env :=
  Canary.mkEnv amd64 {[ "AT_RANDOM"%string := 0x7ffe1000 ]}
               (fun _ => Ok 0x4141414141414107)
               (fun _ => Ok []) (fun _ _ _ => Ok []).

(** A binary without a PT_GNU_STACK header. *)
Definition host_exec_stack : Stack.Host :=
  Stack.mkHost
    (Stack.threads host_two_threads)
    (Stack.read_sp host_two_threads)
    (Stack.readable host_two_threads)
    (Stack.linux host_two_threads)
    [1; 2; 6]
    (Stack.vmmap_find host_two_threads)
    (Stack.mem_u host_two_threads)
    (Stack.arch host_two_threads).

(** Both stacks tracked, no thread selected. *)
Definition tracked_unselected : Stack.State :=
  Stack.mkState (Stack.stacks tracked_two) true None.

End Samples.

(** * Properties *)

(** ** Masking *)

Section Masking.

Lemma ptrmask_ones (a : Arch) : arch_wf a -> ptrmask a = Z.ones (8 * ptrsize a).
Proof. intros [_ ->]. rewrite Z.ones_equiv. lia. Qed.

Lemma byte_ones : 0xFF = Z.ones 8.
Proof. reflexivity. Qed.

(** Bits of the canary mask [ptrmask ^ 0xFF]. *)
Lemma canary_mask_bit (a : Arch) (i : Z) :
  arch_wf a -> 0 <= i ->
  Z.testbit (Z.lxor (ptrmask a) 0xFF) i = (8 <=? i) && (i <? 8 * ptrsize a).
Proof.
  intros Hwf Hi. rewrite (ptrmask_ones a Hwf), byte_ones, Z.lxor_spec.
  destruct Hwf as [Hps _].
  destruct (Z.ltb_spec i 8) as [Hlt | Hge].
  - rewrite !Z.ones_spec_low by lia.
    destruct (Z.leb_spec 8 i); [lia | reflexivity].
  - rewrite (Z.ones_spec_high 8) by lia.
    destruct (Z.leb_spec 8 i); [| lia].
    destruct (Z.ltb_spec i (8 * ptrsize a)).
    + rewrite Z.ones_spec_low by lia. reflexivity.
    + rewrite Z.ones_spec_high by lia. reflexivity.
Qed.

Lemma masked_low_byte (a : Arch) (v : Z) :
  arch_wf a -> Z.land (Z.land v (Z.lxor (ptrmask a) 0xFF)) 0xFF = 0.
Proof.
  intros Hwf. apply Z.bits_inj'. intros i Hi.
  rewrite !Z.land_spec, (canary_mask_bit a i Hwf Hi), Z.bits_0, byte_ones.
  destruct (Z.ltb_spec i 8).
  - destruct (Z.leb_spec 8 i); [lia |]. simpl. now rewrite andb_false_r.
  - rewrite Z.ones_spec_high by lia. now rewrite andb_false_r.
Qed.

Lemma masked_value (a : Arch) (v : Z) :
  arch_wf a -> 0 <= v <= ptrmask a ->
  Z.land v (Z.lxor (ptrmask a) 0xFF) = 256 * (v / 256).
Proof.
  intros Hwf Hv.
  assert (Hps : 0 < ptrsize a) by apply Hwf.
  assert (Hlt : v < 2 ^ (8 * ptrsize a)) by (destruct Hwf as [_ E]; lia).
  replace (256 * (v / 256)) with (Z.shiftl (Z.shiftr v 8) 8)
    by (rewrite Z.shiftl_mul_pow2, Z.shiftr_div_pow2 by lia; change (2 ^ 8) with 256; lia).
  apply Z.bits_inj'. intros i Hi.
  rewrite Z.land_spec, (canary_mask_bit a i Hwf Hi).
  destruct (Z.leb_spec 8 i) as [Hge | Hlow].
  - rewrite Z.shiftl_spec, Z.shiftr_spec by lia.
    replace (i - 8 + 8) with i by lia.
    destruct (Z.ltb_spec i (8 * ptrsize a)) as [| Hhigh].
    + now rewrite andb_true_r.
    + simpl. rewrite andb_false_r. symmetry.
      destruct (Z.eq_dec v 0) as [-> | Hnz]; [apply Z.bits_0 |].
      apply Z.bits_above_log2; [lia |].
      apply Z.log2_lt_pow2; [lia |].
      apply Z.lt_le_trans with (2 ^ (8 * ptrsize a)); [lia |].
      apply Z.pow_le_mono_r; lia.
  - simpl. rewrite andb_false_r. symmetry. apply Z.shiftl_spec_low. lia.
Qed.

End Masking.

(** ** canary_value *)

(** C1: [canary_value] returns [(None, None)] exactly when the auxiliary
    vector has no AT_RANDOM entry; otherwise it returns the value read at
    that address with the low 8 bits cleared, paired with the unmasked
    address; the low byte of every returned masked value is zero. *)
Theorem canary_value_spec (e : Canary.Env) :
  arch_wf (Canary.arch e) ->
  (Canary.canary_value e = Ok (None, None)
     <-> Canary.auxv e !! "AT_RANDOM"%string = None)
  /\ (forall at_random v,
        Canary.auxv e !! "AT_RANDOM"%string = Some at_random ->
        Canary.pvoid e at_random = Ok v ->
        Canary.canary_value e
          = Ok (Some (Z.land v (Z.lxor (ptrmask (Canary.arch e)) 0xFF)), Some at_random)
        /\ (0 <= v <= ptrmask (Canary.arch e) ->
            Canary.canary_value e = Ok (Some (256 * (v / 256)), Some at_random)))
  /\ (forall masked src,
        Canary.canary_value e = Ok (Some masked, src) ->
        Z.land masked 0xFF = 0 /\ masked mod 256 = 0
        /\ exists at_random, src = Some at_random
             /\ Canary.auxv e !! "AT_RANDOM"%string = Some at_random).
Proof.
  intros Hwf. unfold Canary.canary_value.
  destruct (Canary.auxv e !! "AT_RANDOM"%string) as [a |] eqn:Haux.
  - split; [| split].
    + split; [| discriminate].
      destruct (Canary.pvoid e a); discriminate.
    + intros a' v [= <-] Hv. rewrite Hv. split; [reflexivity |].
      intros Hr. now rewrite (masked_value _ v Hwf Hr).
    + intros masked src. destruct (Canary.pvoid e a) as [v |]; [| discriminate].
      intros [= <- <-].
      pose proof (masked_low_byte _ v Hwf) as Hlow.
      split; [exact Hlow |]. split; [| eauto].
      change 0xFF with (Z.ones 8) in Hlow. rewrite Z.land_ones in Hlow by lia.
      exact Hlow.
  - split; [| split].
    + split; reflexivity.
    + intros a v [=].
    + intros masked src [=].
Qed.

Lemma canary_value_spec_witness :
  arch_wf (Canary.arch Samples.env_at_random)
  /\ Canary.canary_value Samples.env_at_random
     = Ok (Some 0x4141414141414100, Some 0x7ffe1000).
Proof.
  assert (Hwf : arch_wf (Canary.arch Samples.env_at_random))
    by (split; [reflexivity | reflexivity]).
  split; [exact Hwf |].
  destruct (canary_value_spec Samples.env_at_random Hwf) as (_ & Hread & _).
  destruct (Hread 0x7ffe1000 0x41414141414141AB) as [_ Hval];
    [reflexivity | reflexivity |].
  apply Hval. vm_compute. split; discriminate.
Defined.

(** ** find_addr_on_stack *)

Section ScanStack.

Variable u : Z -> Res Z.
Variables addr start stop ps : Z.
Hypothesis ps_pos : 0 < ps.

Let no_match_before := Stack.no_match_before u addr ps.

Lemma no_match_before_shift (sp : Z) (k : nat) :
  no_match_before sp (S k) -> no_match_before (sp + ps) k.
Proof.
  unfold no_match_before, Stack.no_match_before.
  intros H j Hj. destruct (H (S j)) as (v & Hv & Hne); [lia |].
  exists v. split; [| exact Hne]. rewrite <- Hv. f_equal. lia.
Qed.

Lemma fuel_step (sp : Z) (fuel : nat) :
  sp < stop ->
  (Stack.scan_fuel sp stop ps <= fuel)%nat ->
  exists fuel', fuel = S fuel' /\ (Stack.scan_fuel (sp + ps) stop ps <= fuel')%nat.
Proof.
  unfold Stack.scan_fuel. intros Hlt Hfuel.
  assert (H0 : 0 <= (stop - sp) / ps) by (apply Z.div_pos; lia).
  assert (Hdiv : (stop - (sp + ps)) / ps = (stop - sp) / ps - 1).
  { replace (stop - (sp + ps)) with (stop - sp + (-1) * ps) by lia.
    rewrite Z.div_add by lia. lia. }
  destruct fuel as [| fuel']; [lia |].
  exists fuel'. split; [reflexivity |]. rewrite Hdiv. lia.
Qed.

(** With enough fuel the loop always returns. *)
Lemma scan_stack_total (fuel : nat) : forall sp,
  (Stack.scan_fuel sp stop ps <= fuel)%nat ->
  exists r, Stack.scan_stack u addr start stop ps fuel sp = Some r.
Proof.
  induction fuel as [| fuel IH]; intros sp Hfuel.
  - simpl. destruct ((start <=? sp) && (sp <? stop)) eqn:Hin; [| eauto].
    apply andb_true_iff in Hin as [_ Hlt%Z.ltb_lt].
    destruct (fuel_step sp 0 Hlt Hfuel) as (f & Hf & _). discriminate.
  - simpl. destruct ((start <=? sp) && (sp <? stop)) eqn:Hin; [| eauto].
    apply andb_true_iff in Hin as [_ Hlt%Z.ltb_lt].
    destruct (u sp) as [value |]; [| eauto].
    destruct (value =? addr); [eauto |].
    apply IH. destruct (fuel_step sp (S fuel) Hlt Hfuel) as (f & [= <-] & Hle).
    exact Hle.
Qed.

(** The scan stops at the first slot holding [addr]. *)
Lemma scan_stack_found (k : nat) : forall fuel sp,
  start <= sp -> sp + Z.of_nat k * ps < stop ->
  (Stack.scan_fuel sp stop ps <= fuel)%nat ->
  no_match_before sp k ->
  u (sp + Z.of_nat k * ps) = Ok addr ->
  Stack.scan_stack u addr start stop ps fuel sp = Some (Ok (sp + Z.of_nat k * ps)).
Proof.
  induction k as [| k IH]; intros fuel sp Hlo Hhi Hfuel Hbefore Hhit.
  - replace (sp + Z.of_nat 0 * ps) with sp in * by lia.
    destruct (fuel_step sp fuel Hhi Hfuel) as (f & -> & _). simpl.
    destruct (Z.leb_spec start sp); [| lia].
    destruct (Z.ltb_spec sp stop); [| lia]. simpl.
    rewrite Hhit, Z.eqb_refl. reflexivity.
  - assert (Hlt : sp < stop) by nia.
    destruct (fuel_step sp fuel Hlt Hfuel) as (f & -> & Hf). simpl.
    destruct (Z.leb_spec start sp); [| lia].
    destruct (Z.ltb_spec sp stop); [| lia]. simpl.
    destruct (Hbefore O) as (v & Hv & Hne); [lia |].
    replace (sp + Z.of_nat 0 * ps) with sp in Hv by lia. rewrite Hv.
    destruct (Z.eqb_spec v addr); [contradiction |].
    replace (sp + Z.of_nat (S k) * ps) with (sp + ps + Z.of_nat k * ps) in * by lia.
    apply IH; [lia | assumption | assumption | | assumption].
    now apply no_match_before_shift.
Qed.

(** A failing read before any match is passed on. *)
Lemma scan_stack_raise (k : nat) (e : Exn) : forall fuel sp,
  start <= sp -> sp + Z.of_nat k * ps < stop ->
  (Stack.scan_fuel sp stop ps <= fuel)%nat ->
  no_match_before sp k ->
  u (sp + Z.of_nat k * ps) = Raise e ->
  Stack.scan_stack u addr start stop ps fuel sp = Some (Raise e).
Proof.
  induction k as [| k IH]; intros fuel sp Hlo Hhi Hfuel Hbefore Hhit.
  - replace (sp + Z.of_nat 0 * ps) with sp in * by lia.
    destruct (fuel_step sp fuel Hhi Hfuel) as (f & -> & _). simpl.
    destruct (Z.leb_spec start sp); [| lia].
    destruct (Z.ltb_spec sp stop); [| lia]. simpl.
    rewrite Hhit. reflexivity.
  - assert (Hlt : sp < stop) by nia.
    destruct (fuel_step sp fuel Hlt Hfuel) as (f & -> & Hf). simpl.
    destruct (Z.leb_spec start sp); [| lia].
    destruct (Z.ltb_spec sp stop); [| lia]. simpl.
    destruct (Hbefore O) as (v & Hv & Hne); [lia |].
    replace (sp + Z.of_nat 0 * ps) with sp in Hv by lia. rewrite Hv.
    destruct (Z.eqb_spec v addr); [contradiction |].
    replace (sp + Z.of_nat (S k) * ps) with (sp + ps + Z.of_nat k * ps) in * by lia.
    apply IH; [lia | assumption | assumption | | assumption].
    now apply no_match_before_shift.
Qed.

(** Without a match up to the upper bound the scan returns 0. *)
Lemma scan_stack_absent (fuel : nat) : forall sp,
  (Stack.scan_fuel sp stop ps <= fuel)%nat ->
  (forall k : nat, start <= sp -> sp + Z.of_nat k * ps < stop ->
     exists v, u (sp + Z.of_nat k * ps) = Ok v /\ v <> addr) ->
  Stack.scan_stack u addr start stop ps fuel sp = Some (Ok 0).
Proof.
  induction fuel as [| fuel IH]; intros sp Hfuel Hnone.
  - simpl. destruct ((start <=? sp) && (sp <? stop)) eqn:Hin; [| reflexivity].
    apply andb_true_iff in Hin as [_ Hlt%Z.ltb_lt].
    destruct (fuel_step sp 0 Hlt Hfuel) as (f & Hf & _). discriminate.
  - simpl. destruct ((start <=? sp) && (sp <? stop)) eqn:Hin; [| reflexivity].
    apply andb_true_iff in Hin as [Hlo%Z.leb_le Hlt%Z.ltb_lt].
    destruct (Hnone O) as (v & Hv & Hne); [lia | lia |].
    replace (sp + Z.of_nat 0 * ps) with sp in Hv by lia. rewrite Hv.
    destruct (Z.eqb_spec v addr); [contradiction |].
    apply IH.
    + destruct (fuel_step sp (S fuel) Hlt Hfuel) as (f & [= <-] & Hle). exact Hle.
    + intros k Hlo' Hhi.
      replace (sp + ps + Z.of_nat k * ps) with (sp + Z.of_nat (S k) * ps) in * by lia.
      apply Hnone; lia.
Qed.

End ScanStack.

(** C3: starting at the stack pointer and stepping by the pointer size
    while inside the page found for it, [find_addr_on_stack] returns 0
    when no slot up to the page's upper bound holds the target, and the
    address of the first (lowest) slot holding it otherwise; the loop
    always returns. *)
Theorem find_addr_on_stack_spec (h : Stack.Host) (s : Stack.State)
    (addr sp : Z) (stack : Page) :
  0 < ptrsize (Stack.arch h) ->
  Stack.regs_sp h s = Ok (Some sp) ->
  Stack.vmmap_find h sp = Some stack ->
  ((forall k : nat,
      page_start stack <= sp ->
      sp + Z.of_nat k * ptrsize (Stack.arch h) < page_end stack ->
      exists v, Stack.mem_u h (sp + Z.of_nat k * ptrsize (Stack.arch h)) = Ok v
                /\ v <> addr) ->
   Stack.find_addr_on_stack h s addr = Some (Ok 0))
  /\ (forall k : nat,
        page_start stack <= sp ->
        sp + Z.of_nat k * ptrsize (Stack.arch h) < page_end stack ->
        Stack.mem_u h (sp + Z.of_nat k * ptrsize (Stack.arch h)) = Ok addr ->
        Stack.no_match_before (Stack.mem_u h) addr (ptrsize (Stack.arch h)) sp k ->
        Stack.find_addr_on_stack h s addr
          = Some (Ok (sp + Z.of_nat k * ptrsize (Stack.arch h))))
  /\ (exists r, Stack.find_addr_on_stack h s addr = Some r).
Proof.
  intros Hps Hsp Hmap. unfold Stack.find_addr_on_stack, page_start, page_end.
  rewrite Hsp, Hmap. split; [| split].
  - intros Hnone. apply scan_stack_absent; [assumption | apply Nat.le_refl | exact Hnone].
  - intros k Hlo Hhi Hhit Hbefore.
    apply scan_stack_found; [assumption .. | apply Nat.le_refl | assumption | assumption].
  - apply scan_stack_total; [assumption | apply Nat.le_refl].
Qed.

Lemma find_addr_on_stack_spec_witness :
  0 < ptrsize (Stack.arch Samples.host_two_threads)
  /\ Stack.find_addr_on_stack Samples.host_two_threads Samples.fresh_state 0xdeadbeef
     = Some (Ok 0x7ffd0020)
  /\ Stack.find_addr_on_stack Samples.host_two_threads Samples.fresh_state 0xfeedface
     = Some (Ok 0).
Proof.
  assert (Hps : 0 < ptrsize (Stack.arch Samples.host_two_threads)) by reflexivity.
  split; [exact Hps |].
  pose proof (find_addr_on_stack_spec Samples.host_two_threads Samples.fresh_state)
    as Hspec.
  split.
  - destruct (Hspec 0xdeadbeef 0x7ffd0010
                (mkPage 0x7ffc0000 0x18000 6 0 (Some "[stack]"%string))
                Hps eq_refl eq_refl) as (_ & Hfound & _).
    apply (Hfound 2%nat); [vm_compute; discriminate | reflexivity | reflexivity |].
    intros j Hj. exists 0.
    destruct j as [| [| j]]; [split; [reflexivity | discriminate] .. | lia].
  - vm_compute. reflexivity.
Defined.

(** ** The [stacks] dictionary *)

Section Dict.

Implicit Types (k : Z * Z * Z) (p : Page) (d : list (Z * Z * Z * Page)).

Lemma dict_get_set_eq k p d : Stack.dict_get k (Stack.dict_set k p d) = Some p.
Proof.
  induction d as [| [k' p'] d IH]; simpl.
  - now rewrite bool_decide_eq_true_2.
  - destruct (bool_decide (k' = k)) eqn:E; simpl.
    + now rewrite bool_decide_eq_true_2.
    + now rewrite E.
Qed.

Lemma dict_get_set_ne k k' p d :
  k <> k' -> Stack.dict_get k' (Stack.dict_set k p d) = Stack.dict_get k' d.
Proof.
  intros Hne. induction d as [| [k0 p0] d IH]; simpl.
  - now rewrite bool_decide_eq_false_2.
  - destruct (bool_decide (k0 = k)) eqn:E; simpl.
    + apply bool_decide_eq_true_1 in E. subst k0.
      now rewrite !bool_decide_eq_false_2.
    + now rewrite IH.
Qed.

Lemma dict_get_values k p d :
  Stack.dict_get k d = Some p -> In p (Stack.dict_values d).
Proof.
  induction d as [| [k' p'] d IH]; simpl; [discriminate |].
  destruct (bool_decide (k' = k)).
  - intros [= ->]. now left.
  - intros H. right. now apply IH.
Qed.

Lemma dict_get_nil_values k d : Stack.dict_get k d <> None -> d <> [].
Proof. destruct d; [intros H; now contradiction H | discriminate]. Qed.

End Dict.

(** ** One page across an update: the lower bound only moves down *)

Lemma grown_refl p : grown p p.
Proof. unfold grown. repeat split; auto; lia. Qed.

Lemma grown_trans p q r : grown p q -> grown q r -> grown p r.
Proof.
  unfold grown. intros (? & ? & ? & Hl1) (? & ? & ? & Hl2).
  repeat split; [lia | lia | congruence | auto].
Qed.

Lemma dict_grown_refl d : dict_grown d d.
Proof. intros k p H. exists p. split; [exact H | apply grown_refl]. Qed.

Lemma dict_grown_trans d1 d2 d3 :
  dict_grown d1 d2 -> dict_grown d2 d3 -> dict_grown d1 d3.
Proof.
  intros H12 H23 k p Hp.
  destruct (H12 k p Hp) as (q & Hq & Hpq).
  destruct (H23 k q Hq) as (r & Hr & Hqr).
  exists r. split; [exact Hr | eapply grown_trans; eassumption].
Qed.

Lemma dict_grown_set k p q d :
  Stack.dict_get k d = Some p -> grown p q -> dict_grown d (Stack.dict_set k q d).
Proof.
  intros Hk Hpq k' p' Hp'. destruct (decide (k = k')) as [<- | Hne].
  - rewrite dict_get_set_eq. exists q. split; [reflexivity | congruence].
  - rewrite dict_get_set_ne by exact Hne. exists p'. split; [exact Hp' | apply grown_refl].
Qed.

Lemma dict_grown_fresh k q d :
  Stack.dict_get k d = None -> dict_grown d (Stack.dict_set k q d).
Proof.
  intros Hk k' p' Hp'. destruct (decide (k = k')) as [<- | Hne].
  - congruence.
  - rewrite dict_get_set_ne by exact Hne. exists p'. split; [exact Hp' | apply grown_refl].
Qed.

Lemma switch_stacks t s :
  Stack.stacks (fst (Stack.switch t s)) = Stack.stacks s.
Proof. unfold Stack.switch. now destruct (Stack.thread_valid t). Qed.

(** What the existing-page branch does to the page. *)
Lemma relabel_extend_grown (page : Page) (label : string) (sp_low : Z) :
  let page1 := match objfile page with
               | None => set_objfile (Some label) page
               | Some _ => page
               end in
  let low := Z.min (vaddr page1) sp_low in
  grown page (if negb (low =? vaddr page1) then extend_down low page1 else page1).
Proof.
  intros page1 low.
  assert (H1 : grown page page1).
  { unfold page1. destruct (objfile page) eqn:Hobj; [apply grown_refl |].
    unfold grown; simpl. split; [lia |]. split; [lia |]. split; [reflexivity |].
    intros l Hl. congruence. }
  eapply grown_trans; [exact H1 |].
  destruct (Z.eqb_spec low (vaddr page1)); simpl.
  - apply grown_refl.
  - unfold grown, extend_down; simpl. unfold low.
    split; [lia |]. split; [lia |]. split; [reflexivity | auto].
Qed.

Lemma update_thread_grown h t s :
  dict_grown (Stack.stacks s) (Stack.stacks (fst (Stack.update_thread h t s))).
Proof.
  unfold Stack.update_thread, Stack.switch.
  destruct (Stack.thread_valid t); [| apply dict_grown_refl].
  destruct (Stack.regs_sp h _) as [[sp |] |]; try apply dict_grown_refl.
  destruct (sp =? 0); [apply dict_grown_refl |].
  simpl Stack.stacks.
  destruct (Stack.dict_get (Stack.thread_ptid t) (Stack.stacks s)) as [page |] eqn:Hget.
  - simpl. eapply dict_grown_set; [exact Hget |]. apply relabel_extend_grown.
  - simpl. now apply dict_grown_fresh.
Qed.

Lemma update_loop_grown h ts : forall s,
  dict_grown (Stack.stacks s) (Stack.stacks (fst (Stack.update_loop h ts s))).
Proof.
  induction ts as [| t ts IH]; intros s; simpl; [apply dict_grown_refl |].
  pose proof (update_thread_grown h t s) as Hstep.
  destruct (Stack.update_thread h t s) as [s' [e |]]; simpl in *; [exact Hstep |].
  eapply dict_grown_trans; [exact Hstep | apply IH].
Qed.

Lemma update_stacks h s :
  Stack.stacks (fst (Stack.update h s))
  = Stack.stacks (fst (Stack.update_loop h (Stack.threads h) s)).
Proof.
  unfold Stack.update.
  destruct (Stack.update_loop h (Stack.threads h) s) as [s' e]. simpl.
  destruct (Stack.selected s) as [c |]; [| reflexivity].
  pose proof (switch_stacks c s') as Hsw.
  destruct (Stack.switch c s') as [s'' [e' |]]; exact Hsw.
Qed.

Lemma update_grown h s :
  dict_grown (Stack.stacks s) (Stack.stacks (fst (Stack.update h s))).
Proof. rewrite update_stacks. apply update_loop_grown. Qed.

Lemma updates_grown calls : forall s,
  dict_grown (Stack.stacks s) (Stack.stacks (Stack.updates calls s)).
Proof.
  induction calls as [| [h sel] calls IH]; intros s; simpl; [apply dict_grown_refl |].
  eapply dict_grown_trans; [| apply IH].
  apply (update_grown h (Stack.set_selected sel s)).
Qed.

Lemma updates_app calls1 calls2 s :
  Stack.updates (calls1 ++ calls2) s = Stack.updates calls2 (Stack.updates calls1 s).
Proof.
  revert s. induction calls1 as [| [h sel] calls1 IH]; intros s; simpl; [reflexivity |].
  apply IH.
Qed.

(** C4: over any run of [update] calls, a tracked thread stays tracked
    and its page's lower bound never rises: between any two points of the
    run the page is either unchanged in start and size, or its start has
    decreased and its size has increased by the same amount. *)
Theorem update_lower_bound_monotone
    (calls1 calls2 : list (Stack.Host * option Stack.Thread))
    (s : Stack.State) (ptid : Z * Z * Z) (p1 : Page) :
  Stack.dict_get ptid (Stack.stacks (Stack.updates calls1 s)) = Some p1 ->
  exists p2,
    Stack.dict_get ptid (Stack.stacks (Stack.updates (calls1 ++ calls2) s)) = Some p2
    /\ vaddr p2 <= vaddr p1
    /\ ((vaddr p2 = vaddr p1 /\ memsz p2 = memsz p1)
        \/ (vaddr p2 < vaddr p1 /\ memsz p2 - memsz p1 = vaddr p1 - vaddr p2)).
Proof.
  intros Hp1. rewrite updates_app.
  destruct (updates_grown calls2 (Stack.updates calls1 s) ptid p1 Hp1)
    as (p2 & Hp2 & Hle & Hend & _).
  exists p2. split; [exact Hp2 |]. split; [exact Hle |].
  destruct (Z.eq_dec (vaddr p2) (vaddr p1)); [left | right]; lia.
Qed.

Lemma update_lower_bound_monotone_witness :
  exists p2,
    Stack.dict_get (4242, 4242, 0)
      (Stack.stacks
         (Stack.updates
            ([(Samples.host_two_threads, Some Samples.main_thread)]
               ++ [(Samples.host_deeper, Some Samples.worker_thread)])
            Samples.fresh_state)) = Some p2
    /\ vaddr p2 <= 0x7ffcf000
    /\ ((vaddr p2 = 0x7ffcf000 /\ memsz p2 = 0x9000)
        \/ (vaddr p2 < 0x7ffcf000 /\ memsz p2 - 0x9000 = 0x7ffcf000 - vaddr p2)).
Proof.
  apply (update_lower_bound_monotone
           [(Samples.host_two_threads, Some Samples.main_thread)]
           [(Samples.host_deeper, Some Samples.worker_thread)]
           Samples.fresh_state (4242, 4242, 0)
           (mkPage 0x7ffcf000 0x9000 6 0 (Some "[stack]"%string))).
  vm_compute. reflexivity.
Defined.

(** ** Alignment and boundary probing *)

Lemma align_down_mod (sp : Z) : Z.land sp (Z.lnot 0xFFF) = sp - sp mod 0x1000.
Proof.
  rewrite <- Z.sub_land_same_l. change 0xFFF with (Z.ones 12).
  rewrite Z.land_ones by lia. reflexivity.
Qed.

Lemma page_align_mod (sp : Z) : Stack.page_align sp = sp - sp mod 0x1000.
Proof. apply align_down_mod. Qed.

Lemma page_align_idem (sp : Z) : Stack.page_align (Stack.page_align sp) = Stack.page_align sp.
Proof.
  rewrite !page_align_mod.
  replace ((sp - sp mod 0x1000) mod 0x1000) with 0; [lia |].
  symmetry. rewrite Zminus_mod_idemp_r, Z.sub_diag. reflexivity.
Qed.

Lemma probe_upward_ge ok n : forall addr, addr <= Stack.probe_upward ok n addr.
Proof.
  induction n as [| n IH]; intros addr; simpl; [lia |].
  destruct (ok addr); [| lia].
  specialize (IH (addr + Stack.PAGE_SIZE)). unfold Stack.PAGE_SIZE in *. lia.
Qed.

Lemma probe_upward_mapped ok n addr :
  ok addr = true -> addr + Stack.PAGE_SIZE <= Stack.probe_upward ok (S n) addr.
Proof. intros Hok. simpl. rewrite Hok. apply probe_upward_ge. Qed.

(** When the pointer's own page is readable, or the ABI is not Linux,
    the boundary lies at least one page above the aligned pointer. *)
Lemma find_upper_stack_boundary_above h sp :
  Stack.linux h = false \/ Stack.readable h (Stack.page_align sp) = true ->
  Stack.page_align sp + Stack.PAGE_SIZE <= Stack.find_upper_stack_boundary h sp 1024.
Proof.
  intros Hcase. unfold Stack.find_upper_stack_boundary, Stack.find_upper_boundary.
  rewrite page_align_idem.
  destruct (Stack.linux h); cbn [negb].
  - destruct Hcase as [Hl | Hr]; [discriminate |].
    replace (Z.to_nat 1024) with (S (Z.to_nat 1023)) by reflexivity.
    now apply probe_upward_mapped.
  - lia.
Qed.

(** When the pointer's own page is unreadable on Linux, the first probe
    fails and the boundary is the aligned pointer itself. *)
Lemma find_upper_stack_boundary_unmapped h sp :
  Stack.linux h = true -> Stack.readable h (Stack.page_align sp) = false ->
  Stack.find_upper_stack_boundary h sp 1024 = Stack.page_align sp.
Proof.
  intros Hlinux Hunread.
  unfold Stack.find_upper_stack_boundary, Stack.find_upper_boundary.
  rewrite page_align_idem, Hlinux. cbn [negb].
  replace (Z.to_nat 1024) with (S (Z.to_nat 1023)) by reflexivity.
  cbn [Stack.probe_upward]. now rewrite Hunread.
Qed.

(** ** is_executable *)

Lemma fold_nx (l : list Z) : forall b,
  fold_left (fun nx p_type => if p_type =? Stack.PT_GNU_STACK then true else nx) l b
  = b || existsb (fun p_type => p_type =? Stack.PT_GNU_STACK) l.
Proof.
  induction l as [| x l IH]; intros b; simpl; [now rewrite orb_false_r |].
  rewrite IH. destruct (x =? Stack.PT_GNU_STACK), b; reflexivity.
Qed.

Lemma is_executable_has_gnu_stack h s :
  Stack.is_executable h s
  = (negb (Stack.has_gnu_stack h), Stack.set_nx (Stack.has_gnu_stack h) s).
Proof. unfold Stack.is_executable, Stack.has_gnu_stack. now rewrite fold_nx. Qed.

Lemma has_gnu_stack_In h :
  Stack.has_gnu_stack h = true <-> In Stack.PT_GNU_STACK (Stack.phdrs h).
Proof.
  unfold Stack.has_gnu_stack. rewrite existsb_exists. split.
  - intros (x & Hx & ->%Z.eqb_eq). exact Hx.
  - intros H. exists Stack.PT_GNU_STACK. split; [exact H | apply Z.eqb_refl].
Qed.

(** ** Pages created by an update *)

Lemma update_thread_other h t s k :
  Stack.thread_ptid t <> k ->
  Stack.dict_get k (Stack.stacks (fst (Stack.update_thread h t s)))
  = Stack.dict_get k (Stack.stacks s).
Proof.
  intros Hne. unfold Stack.update_thread, Stack.switch.
  destruct (Stack.thread_valid t); [| reflexivity].
  destruct (Stack.regs_sp h _) as [[sp |] |]; try reflexivity.
  destruct (sp =? 0); [reflexivity |].
  simpl Stack.stacks.
  destruct (Stack.dict_get (Stack.thread_ptid t) (Stack.stacks s)); simpl;
    now rewrite dict_get_set_ne.
Qed.

Lemma update_loop_other h k ts : forall s,
  (forall t, In t ts -> Stack.thread_ptid t <> k) ->
  Stack.dict_get k (Stack.stacks (fst (Stack.update_loop h ts s)))
  = Stack.dict_get k (Stack.stacks s).
Proof.
  induction ts as [| t ts IH]; intros s Hne; simpl; [reflexivity |].
  pose proof (update_thread_other h t s k (Hne t (or_introl eq_refl))) as Hstep.
  destruct (Stack.update_thread h t s) as [s' [e |]]; simpl in *; [exact Hstep |].
  rewrite IH; [exact Hstep |]. intros t' Ht'. apply Hne. now right.
Qed.

(** The page [update] records for a thread it did not know. *)
Lemma update_thread_creates h t s p :
  Stack.dict_get (Stack.thread_ptid t) (Stack.stacks s) = None ->
  Stack.dict_get (Stack.thread_ptid t) (Stack.stacks (fst (Stack.update_thread h t s)))
    = Some p ->
  exists sp, Stack.read_sp h (Some t) = Ok (Some sp) /\ sp <> 0
    /\ p = Stack.new_page h sp.
Proof.
  intros Hnone. unfold Stack.update_thread, Stack.switch.
  destruct (Stack.thread_valid t); [| simpl; congruence].
  unfold Stack.regs_sp. simpl Stack.selected.
  destruct (Stack.read_sp h (Some t)) as [[sp |] |]; try (simpl; congruence).
  destruct (Z.eqb_spec sp 0); [simpl; congruence |].
  simpl Stack.stacks. rewrite Hnone.
  rewrite fold_nx. simpl.
  rewrite dict_get_set_eq. intros [= <-].
  exists sp. repeat split; [assumption |].
  unfold Stack.new_page. rewrite negb_involutive. reflexivity.
Qed.

Lemma fresh_ok_refl h d : fresh_ok h d d.
Proof. intros k p H0 H1. congruence. Qed.

Lemma update_thread_fresh_ok h d0 t s :
  fresh_ok h d0 (Stack.stacks s) ->
  fresh_ok h d0 (Stack.stacks (fst (Stack.update_thread h t s))).
Proof.
  intros Hok k p Hk0 Hk.
  destruct (decide (Stack.thread_ptid t = k)) as [<- | Hne].
  - destruct (Stack.dict_get (Stack.thread_ptid t) (Stack.stacks s)) as [page |] eqn:Hget.
    + destruct (update_thread_grown h t s _ _ Hget) as (q & Hq & _ & _ & Hflags & Hlabel).
      rewrite Hk in Hq. injection Hq as <-.
      destruct (Hok _ _ Hk0 Hget) as [Hf Ho].
      split; [congruence | auto].
    + destruct (update_thread_creates h t s p Hget Hk) as (sp & _ & _ & ->).
      split; reflexivity.
  - rewrite update_thread_other in Hk by exact Hne. eauto.
Qed.

Lemma update_loop_fresh_ok h d0 ts : forall s,
  fresh_ok h d0 (Stack.stacks s) ->
  fresh_ok h d0 (Stack.stacks (fst (Stack.update_loop h ts s))).
Proof.
  induction ts as [| t ts IH]; intros s Hok; simpl; [exact Hok |].
  pose proof (update_thread_fresh_ok h d0 t s Hok) as Hstep.
  destruct (Stack.update_thread h t s) as [s' [e |]]; simpl in *; [exact Hstep |].
  now apply IH.
Qed.

Lemma update_fresh_ok h s :
  fresh_ok h (Stack.stacks s) (Stack.stacks (fst (Stack.update h s))).
Proof. rewrite update_stacks. apply update_loop_fresh_ok, fresh_ok_refl. Qed.

(** ** The selected thread across [update] *)

Lemma update_thread_selected h t s :
  snd (Stack.update_thread h t s) = None ->
  Stack.selected (fst (Stack.update_thread h t s)) = Some t.
Proof.
  unfold Stack.update_thread, Stack.switch.
  destruct (Stack.thread_valid t); [| discriminate].
  destruct (Stack.regs_sp h _) as [[sp |] |]; [| reflexivity | discriminate].
  destruct (sp =? 0); [reflexivity |].
  simpl Stack.stacks.
  destruct (Stack.dict_get (Stack.thread_ptid t) (Stack.stacks s)); reflexivity.
Qed.

Lemma update_loop_selected_last h ts : forall s t0,
  snd (Stack.update_loop h ts s) = None ->
  Stack.selected (fst (Stack.update_loop h ts s))
  = match ts with
    | [] => Stack.selected s
    | _ :: _ => Some (List.last ts t0)
    end.
Proof.
  induction ts as [| t ts IH]; intros s t0 Hok; [reflexivity |].
  cbn [Stack.update_loop] in *.
  pose proof (update_thread_selected h t s) as Hsel.
  destruct (Stack.update_thread h t s) as [s' [e |]]; [discriminate |].
  rewrite (IH s' t0 Hok). destruct ts; [now apply Hsel | reflexivity].
Qed.

(** C9, as the code has it: a thread that was selected before the call
    and can still be switched to is selected again after [update],
    whether the loop completed or raised; when no thread was selected the
    [finally] block restores nothing, and after a complete loop the last
    thread visited stays selected. *)
Theorem update_restores_selected_thread (h : Stack.Host) (s : Stack.State) :
  (forall t, Stack.selected s = Some t -> Stack.thread_valid t = true ->
     Stack.selected (fst (Stack.update h s)) = Stack.selected s)
  /\ (Stack.selected s = None ->
      Stack.update h s = Stack.update_loop h (Stack.threads h) s
      /\ (forall t ts, Stack.threads h = t :: ts -> snd (Stack.update h s) = None ->
            Stack.selected (fst (Stack.update h s)) = Some (List.last ts t))).
Proof.
  split.
  - intros t Hsel Hvalid. unfold Stack.update. rewrite Hsel.
    destruct (Stack.update_loop h (Stack.threads h) s) as [s' e].
    unfold Stack.switch. rewrite Hvalid. destruct e; reflexivity.
  - intros Hsel.
    assert (Heq : Stack.update h s = Stack.update_loop h (Stack.threads h) s).
    { unfold Stack.update. rewrite Hsel.
      now destruct (Stack.update_loop h (Stack.threads h) s). }
    split; [exact Heq |].
    intros t ts Hts Hok. rewrite Heq in *. rewrite Hts in *.
    rewrite (update_loop_selected_last h (t :: ts) s t Hok).
    destruct ts; reflexivity.
Qed.

Lemma update_restores_selected_thread_witness :
  Stack.selected Samples.fresh_state = Some Samples.main_thread
  /\ Stack.thread_valid Samples.main_thread = true
  /\ Stack.selected (fst (Stack.update Samples.host_two_threads Samples.fresh_state))
     = Stack.selected Samples.fresh_state.
Proof.
  split; [reflexivity |]. split; [reflexivity |].
  apply (proj1 (update_restores_selected_thread
                  Samples.host_two_threads Samples.fresh_state)
           Samples.main_thread); reflexivity.
Defined.

(** C9 as stated fails: with live threads but none selected, [update]
    returns normally and leaves the last thread selected. *)
Lemma update_leaves_thread_selected :
  Stack.selected Samples.no_thread_selected = None
  /\ snd (Stack.update Samples.host_two_threads Samples.no_thread_selected) = None
  /\ Stack.selected (fst (Stack.update Samples.host_two_threads Samples.no_thread_selected))
     = Some Samples.worker_thread
  /\ Stack.selected (fst (Stack.update Samples.host_two_threads Samples.no_thread_selected))
     <> Stack.selected Samples.no_thread_selected.
Proof. vm_compute. repeat split; discriminate. Qed.

(** ** A new page and the stack pointer it was built from *)

Lemma NoDup_map_In_inj {A B : Type} (f : A -> B) (l : list A) (a b : A) :
  NoDup (map f l) -> In a l -> In b l -> f a = f b -> a = b.
Proof.
  induction l as [| x l IH]; simpl; [contradiction |].
  intros Hnd Ha Hb Hf. apply NoDup_cons in Hnd as [Hx Hnd].
  rewrite list_elem_of_In in Hx.
  destruct Ha as [-> | Ha], Hb as [-> | Hb]; [reflexivity | | | now apply IH].
  - exfalso. apply Hx. rewrite Hf. now apply in_map.
  - exfalso. apply Hx. rewrite <- Hf. now apply in_map.
Qed.

Lemma update_loop_creates h k ts : forall s p,
  NoDup (map Stack.thread_ptid ts) ->
  Stack.dict_get k (Stack.stacks s) = None ->
  Stack.dict_get k (Stack.stacks (fst (Stack.update_loop h ts s))) = Some p ->
  exists t sp, In t ts /\ Stack.thread_ptid t = k
    /\ Stack.read_sp h (Some t) = Ok (Some sp) /\ sp <> 0
    /\ p = Stack.new_page h sp.
Proof.
  induction ts as [| t ts IH]; intros s p Hnd Hnone Hsome; simpl in *; [congruence |].
  apply NoDup_cons in Hnd as [Hfresh Hnd]. rewrite list_elem_of_In in Hfresh.
  destruct (decide (Stack.thread_ptid t = k)) as [<- | Hne].
  - assert (Hkeep : Stack.dict_get (Stack.thread_ptid t)
                      (Stack.stacks (fst (Stack.update_thread h t s))) = Some p).
    { destruct (Stack.update_thread h t s) as [s' [e |]]; simpl in *; [exact Hsome |].
      rewrite update_loop_other in Hsome; [exact Hsome |].
      intros t' Ht' Heq. apply Hfresh. rewrite <- Heq. now apply in_map. }
    destruct (update_thread_creates h t s p Hnone Hkeep) as (sp & Hsp & Hnz & ->).
    exists t, sp. auto.
  - pose proof (update_thread_other h t s k Hne) as Hstep.
    destruct (Stack.update_thread h t s) as [s' [e |]]; simpl in *; [congruence |].
    rewrite Hnone in Hstep.
    destruct (IH s' p Hnd Hstep Hsome) as (t' & sp & Hin & Hrest).
    exists t', sp. auto.
Qed.

Lemma update_thread_tracks h t s sp :
  snd (Stack.update_thread h t s) = None ->
  Stack.read_sp h (Some t) = Ok (Some sp) -> sp <> 0 ->
  Stack.dict_get (Stack.thread_ptid t) (Stack.stacks (fst (Stack.update_thread h t s)))
  <> None.
Proof.
  unfold Stack.update_thread, Stack.switch.
  destruct (Stack.thread_valid t); [| discriminate].
  unfold Stack.regs_sp. simpl Stack.selected. intros Hok Hsp Hnz. rewrite Hsp in *.
  destruct (Z.eqb_spec sp 0); [contradiction |].
  simpl Stack.stacks.
  destruct (Stack.dict_get (Stack.thread_ptid t) (Stack.stacks s)); simpl;
    rewrite dict_get_set_eq; discriminate.
Qed.

Lemma update_loop_tracks h t sp ts : forall s,
  snd (Stack.update_loop h ts s) = None -> In t ts ->
  Stack.read_sp h (Some t) = Ok (Some sp) -> sp <> 0 ->
  Stack.dict_get (Stack.thread_ptid t) (Stack.stacks (fst (Stack.update_loop h ts s)))
  <> None.
Proof.
  induction ts as [| t0 ts IH]; intros s Hok Hin Hsp Hnz; simpl in *; [contradiction |].
  pose proof (update_thread_tracks h t0 s sp) as Hstep.
  pose proof (update_loop_grown h ts) as Hgrow.
  destruct (Stack.update_thread h t0 s) as [s' [e |]]; simpl in *; [discriminate |].
  destruct Hin as [-> | Hin]; [| now apply IH].
  destruct (Stack.dict_get (Stack.thread_ptid t) (Stack.stacks s')) as [q |] eqn:Hq;
    [| now contradiction Hstep].
  destruct (Hgrow s' _ _ Hq) as (q' & -> & _). discriminate.
Qed.

Lemma update_ok_loop_ok h s :
  snd (Stack.update h s) = None ->
  snd (Stack.update_loop h (Stack.threads h) s) = None.
Proof.
  unfold Stack.update.
  destruct (Stack.update_loop h (Stack.threads h) s) as [s' e]. simpl.
  destruct (Stack.selected s) as [c |]; [| auto].
  destruct (Stack.switch c s') as [s'' [e' |]]; [discriminate | auto].
Qed.

(** C6: [is_executable] returns false when some program header has type
    PT_GNU_STACK and true when none has; a page that [update] creates
    carries permission 6 in the first case and 7 in the second, and an
    [update] that completes does create such a page for every thread it
    did not know whose stack pointer is nonzero. *)
Theorem is_executable_permission (h : Stack.Host) (s : Stack.State) :
  Stack.PT_GNU_STACK = 0x6474E551
  /\ (In Stack.PT_GNU_STACK (Stack.phdrs h) ->
      fst (Stack.is_executable h s) = false
      /\ (forall ptid p,
            Stack.dict_get ptid (Stack.stacks s) = None ->
            Stack.dict_get ptid (Stack.stacks (fst (Stack.update h s))) = Some p ->
            flags p = 6)
      /\ (forall t sp,
            snd (Stack.update h s) = None -> In t (Stack.threads h) ->
            Stack.read_sp h (Some t) = Ok (Some sp) -> sp <> 0 ->
            Stack.dict_get (Stack.thread_ptid t) (Stack.stacks s) = None ->
            exists p, Stack.dict_get (Stack.thread_ptid t)
                        (Stack.stacks (fst (Stack.update h s))) = Some p
                      /\ flags p = 6))
  /\ (~ In Stack.PT_GNU_STACK (Stack.phdrs h) ->
      fst (Stack.is_executable h s) = true
      /\ (forall ptid p,
            Stack.dict_get ptid (Stack.stacks s) = None ->
            Stack.dict_get ptid (Stack.stacks (fst (Stack.update h s))) = Some p ->
            flags p = 7)
      /\ (forall t sp,
            snd (Stack.update h s) = None -> In t (Stack.threads h) ->
            Stack.read_sp h (Some t) = Ok (Some sp) -> sp <> 0 ->
            Stack.dict_get (Stack.thread_ptid t) (Stack.stacks s) = None ->
            exists p, Stack.dict_get (Stack.thread_ptid t)
                        (Stack.stacks (fst (Stack.update h s))) = Some p
                      /\ flags p = 7)).
Proof.
  split; [reflexivity |].
  rewrite is_executable_has_gnu_stack. simpl fst.
  pose proof (has_gnu_stack_In h) as Hin.
  pose proof (update_fresh_ok h s) as Hfresh.
  assert (Hcreated : forall t sp,
            snd (Stack.update h s) = None -> In t (Stack.threads h) ->
            Stack.read_sp h (Some t) = Ok (Some sp) -> sp <> 0 ->
            exists p, Stack.dict_get (Stack.thread_ptid t)
                        (Stack.stacks (fst (Stack.update h s))) = Some p).
  { intros t sp Hok Ht Hsp Hnz. apply update_ok_loop_ok in Hok.
    pose proof (update_loop_tracks h t sp _ s Hok Ht Hsp Hnz) as Htr.
    rewrite update_stacks.
    destruct (Stack.dict_get (Stack.thread_ptid t)
                (Stack.stacks (fst (Stack.update_loop h (Stack.threads h) s))))
      as [p |]; [eauto | now contradiction Htr]. }
  split; intros Hhdr.
  - apply Hin in Hhdr. rewrite Hhdr. split; [reflexivity |].
    assert (Hperm : forall ptid p,
              Stack.dict_get ptid (Stack.stacks s) = None ->
              Stack.dict_get ptid (Stack.stacks (fst (Stack.update h s))) = Some p ->
              flags p = 6).
    { intros ptid p H0 H1. destruct (Hfresh ptid p H0 H1) as [Hf _].
      now rewrite Hhdr in Hf. }
    split; [exact Hperm |].
    intros t sp Hok Ht Hsp Hnz Hnew.
    destruct (Hcreated t sp Hok Ht Hsp Hnz) as [p Hp]. exists p. eauto.
  - destruct (Stack.has_gnu_stack h) eqn:Hb.
    + exfalso. apply Hhdr, Hin. reflexivity.
    + split; [reflexivity |].
      assert (Hperm : forall ptid p,
                Stack.dict_get ptid (Stack.stacks s) = None ->
                Stack.dict_get ptid (Stack.stacks (fst (Stack.update h s))) = Some p ->
                flags p = 7).
      { intros ptid p H0 H1. destruct (Hfresh ptid p H0 H1) as [Hf _].
        now rewrite Hb in Hf. }
      split; [exact Hperm |].
      intros t sp Hok Ht Hsp Hnz Hnew.
      destruct (Hcreated t sp Hok Ht Hsp Hnz) as [p Hp]. exists p. eauto.
Qed.

Lemma is_executable_permission_witness :
  In Stack.PT_GNU_STACK (Stack.phdrs Samples.host_two_threads)
  /\ ~ In Stack.PT_GNU_STACK (Stack.phdrs Samples.host_exec_stack)
  /\ fst (Stack.is_executable Samples.host_two_threads Samples.fresh_state) = false
  /\ (exists p, Stack.dict_get (Stack.thread_ptid Samples.main_thread)
                  (Stack.stacks (fst (Stack.update Samples.host_two_threads
                                        Samples.fresh_state))) = Some p
                /\ flags p = 6)
  /\ fst (Stack.is_executable Samples.host_exec_stack Samples.fresh_state) = true
  /\ (exists p, Stack.dict_get (Stack.thread_ptid Samples.main_thread)
                  (Stack.stacks (fst (Stack.update Samples.host_exec_stack
                                        Samples.fresh_state))) = Some p
                /\ flags p = 7).
Proof.
  assert (Hin : In Stack.PT_GNU_STACK (Stack.phdrs Samples.host_two_threads))
    by (right; left; reflexivity).
  assert (Hout : ~ In Stack.PT_GNU_STACK (Stack.phdrs Samples.host_exec_stack))
    by (intros [H | [H | [H | []]]]; discriminate).
  split; [exact Hin |]. split; [exact Hout |].
  destruct (is_executable_permission Samples.host_two_threads Samples.fresh_state)
    as (_ & Hpresent & _).
  destruct (is_executable_permission Samples.host_exec_stack Samples.fresh_state)
    as (_ & _ & Habsent).
  destruct (Hpresent Hin) as (Hexec6 & _ & Hnew6).
  destruct (Habsent Hout) as (Hexec7 & _ & Hnew7).
  split; [exact Hexec6 |]. split.
  { apply (Hnew6 Samples.main_thread 0x7ffd0010);
      [reflexivity | left; reflexivity | reflexivity | discriminate | reflexivity]. }
  split; [exact Hexec7 |].
  apply (Hnew7 Samples.main_thread 0x7ffd0010);
    [reflexivity | left; reflexivity | reflexivity | discriminate | reflexivity].
Defined.

Lemma new_page_contains h sp :
  Stack.linux h = false \/ Stack.readable h (Stack.page_align sp) = true ->
  vaddr (Stack.new_page h sp) = sp - (0x1000 + sp mod 0x1000)
  /\ Stack.page_align sp + 0x1000 <= page_end (Stack.new_page h sp)
  /\ page_contains (Stack.new_page h sp) sp = true.
Proof.
  intros Hcase. pose proof (find_upper_stack_boundary_above h sp Hcase) as Hup.
  pose proof (Z.mod_pos_bound sp 0x1000 ltac:(lia)) as Hmod.
  unfold Stack.PAGE_SIZE in Hup. rewrite page_align_mod in *.
  unfold page_contains, page_start, page_end, Stack.new_page. simpl.
  rewrite align_down_mod.
  split; [lia |]. split; [lia |].
  apply andb_true_iff. split; [apply Z.leb_le | apply Z.ltb_lt]; lia.
Qed.

(** ** find *)

Lemma first_containing_Some a pages q :
  Stack.first_containing a pages = Some q ->
  In q pages /\ page_contains q a = true.
Proof. unfold Stack.first_containing. apply find_some. Qed.

Lemma first_containing_In a pages p :
  In p pages -> page_contains p a = true ->
  exists q, Stack.first_containing a pages = Some q.
Proof.
  intros Hin Hc. unfold Stack.first_containing.
  destruct (List.find _ pages) as [q |] eqn:Hf; [eauto |].
  pose proof (find_none _ _ Hf p Hin) as Hn. simpl in Hn. congruence.
Qed.

Lemma find_known h s a :
  Stack.stacks s <> [] ->
  Stack.find h s a = (s, Ok (Stack.first_containing a (Stack.dict_values (Stack.stacks s)))).
Proof.
  unfold Stack.find. destruct (Stack.stacks s) eqn:E; [contradiction |].
  simpl. rewrite E. reflexivity.
Qed.

(** C10, as the model has it: a page that [update] creates for a thread
    it did not know lies one page plus the alignment remainder below the
    observed stack pointer and ends where [find_upper_stack_boundary]
    says; when the pointer's own page is readable (or the ABI is not
    Linux) its upper bound is at least one page above the aligned
    pointer, the pointer lies inside it and [find] succeeds on the
    pointer right after the update; when that page is unreadable on
    Linux the boundary is the aligned pointer itself and the page ends
    below the pointer, which it does not contain.  After a complete
    [update] the page exists whenever the pointer is nonzero. *)
Theorem update_new_page_contains_sp (h : Stack.Host) (s : Stack.State)
    (t : Stack.Thread) (sp : Z) :
  NoDup (map Stack.thread_ptid (Stack.threads h)) ->
  In t (Stack.threads h) ->
  Stack.dict_get (Stack.thread_ptid t) (Stack.stacks s) = None ->
  Stack.read_sp h (Some t) = Ok (Some sp) ->
  (forall p,
     Stack.dict_get (Stack.thread_ptid t) (Stack.stacks (fst (Stack.update h s))) = Some p ->
     sp <> 0
     /\ vaddr p = sp - (0x1000 + sp mod 0x1000)
     /\ page_end p = Stack.find_upper_stack_boundary h sp 1024
     /\ (Stack.linux h = false \/ Stack.readable h (Stack.page_align sp) = true ->
         Stack.page_align sp + 0x1000 <= page_end p
         /\ page_contains p sp = true
         /\ exists q, Stack.find h (fst (Stack.update h s)) sp
                        = (fst (Stack.update h s), Ok (Some q))
                      /\ page_contains q sp = true)
     /\ (Stack.linux h = true -> Stack.readable h (Stack.page_align sp) = false ->
         page_end p = Stack.page_align sp
         /\ page_end p <= sp
         /\ page_contains p sp = false))
  /\ (snd (Stack.update h s) = None -> sp <> 0 ->
      exists p, Stack.dict_get (Stack.thread_ptid t)
                  (Stack.stacks (fst (Stack.update h s))) = Some p).
Proof.
  intros Hnd Hin Hnone Hsp. split.
  - intros p Hp. pose proof Hp as Hp'. rewrite update_stacks in Hp'.
    destruct (update_loop_creates h _ _ s p Hnd Hnone Hp')
      as (t' & sp' & Hin' & Hptid & Hsp' & Hnz & ->).
    assert (t' = t) as -> by (eapply NoDup_map_In_inj; eassumption).
    assert (sp' = sp) as -> by congruence.
    split; [exact Hnz |]. split.
    { unfold Stack.new_page. simpl. rewrite align_down_mod. lia. }
    assert (Hend : page_end (Stack.new_page h sp)
                   = Stack.find_upper_stack_boundary h sp 1024)
      by (unfold page_end, Stack.new_page; simpl; lia).
    split; [exact Hend |]. split.
    + intros Hcase. destruct (new_page_contains h sp Hcase) as (_ & Hup & Hc).
      split; [exact Hup |]. split; [exact Hc |].
      rewrite find_known by (eapply dict_get_nil_values; rewrite Hp; discriminate).
      destruct (first_containing_In sp _ _ (dict_get_values _ _ _ Hp) Hc) as [q Hq].
      exists q. rewrite Hq. split; [reflexivity |].
      now apply first_containing_Some in Hq.
    + intros Hlinux Hunread.
      rewrite (find_upper_stack_boundary_unmapped h sp Hlinux Hunread) in Hend.
      pose proof (Z.mod_pos_bound sp 0x1000 ltac:(lia)) as Hmod.
      assert (Hle : page_end (Stack.new_page h sp) <= sp)
        by (rewrite Hend, page_align_mod; lia).
      split; [exact Hend |]. split; [exact Hle |].
      unfold page_contains. apply andb_false_iff. right. apply Z.ltb_ge. exact Hle.
  - intros Hok Hnz. apply update_ok_loop_ok in Hok.
    pose proof (update_loop_tracks h t sp _ s Hok Hin Hsp Hnz) as Htr.
    rewrite update_stacks.
    destruct (Stack.dict_get (Stack.thread_ptid t)
                (Stack.stacks (fst (Stack.update_loop h (Stack.threads h) s))))
      as [p |]; [eauto | now contradiction Htr].
Qed.

Lemma update_new_page_contains_sp_witness :
  NoDup (map Stack.thread_ptid (Stack.threads Samples.host_two_threads))
  /\ In Samples.worker_thread (Stack.threads Samples.host_two_threads)
  /\ Stack.dict_get (Stack.thread_ptid Samples.worker_thread)
       (Stack.stacks Samples.fresh_state) = None
  /\ Stack.read_sp Samples.host_two_threads (Some Samples.worker_thread)
     = Ok (Some 0x7ffd2010)
  /\ page_contains (mkPage 0x7ffd1000 0x7000 6 0 (Some "[stack]"%string)) 0x7ffd2010
     = true
  /\ Stack.readable Samples.host_pivoted (Stack.page_align 0x50000010) = false
  /\ page_contains (mkPage 0x4ffff000 0x1000 6 0 (Some "[stack]"%string)) 0x50000010
     = false.
Proof.
  assert (Hnd : NoDup (map Stack.thread_ptid (Stack.threads Samples.host_two_threads))).
  { apply (bool_decide_unpack _). vm_compute. exact I. }
  assert (Hnd' : NoDup (map Stack.thread_ptid (Stack.threads Samples.host_pivoted))).
  { apply (bool_decide_unpack _). vm_compute. exact I. }
  assert (Hin : In Samples.worker_thread (Stack.threads Samples.host_two_threads))
    by (right; left; reflexivity).
  split; [exact Hnd |]. split; [exact Hin |].
  split; [reflexivity |]. split; [reflexivity |].
  destruct (update_new_page_contains_sp Samples.host_two_threads Samples.fresh_state
              Samples.worker_thread 0x7ffd2010 Hnd Hin eq_refl eq_refl) as [Hpage _].
  destruct (Hpage (mkPage 0x7ffd1000 0x7000 6 0 (Some "[stack]"%string)))
    as (_ & _ & _ & Hinside & _); [vm_compute; reflexivity |].
  split; [apply Hinside; right; reflexivity |].
  split; [reflexivity |].
  destruct (update_new_page_contains_sp Samples.host_pivoted Samples.fresh_state
              Samples.main_thread 0x50000010 Hnd' (or_introl eq_refl) eq_refl eq_refl)
    as [Hpage' _].
  destruct (Hpage' (mkPage 0x4ffff000 0x1000 6 0 (Some "[stack]"%string)))
    as (_ & _ & _ & _ & Houtside); [vm_compute; reflexivity |].
  apply Houtside; reflexivity.
Defined.

(** C10 as stated fails: when the stack pointer points into unmapped
    memory the probe stops at the aligned pointer itself, so the new page
    ends below the pointer and [find] does not find it. *)
Lemma update_new_page_misses_sp :
  Stack.read_sp Samples.host_pivoted (Some Samples.main_thread) = Ok (Some 0x50000010)
  /\ Stack.dict_get (Stack.thread_ptid Samples.main_thread)
       (Stack.stacks Samples.fresh_state) = None
  /\ Stack.update Samples.host_pivoted Samples.fresh_state
     = (Stack.mkState
          [((4242, 4242, 0), mkPage 0x4ffff000 0x1000 6 0 (Some "[stack]"%string))]
          true (Some Samples.main_thread),
        None)
  /\ Stack.find_upper_stack_boundary Samples.host_pivoted 0x50000010 1024
     = Stack.page_align 0x50000010
  /\ page_contains (mkPage 0x4ffff000 0x1000 6 0 (Some "[stack]"%string)) 0x50000010
     = false
  /\ snd (Stack.find Samples.host_pivoted
            (fst (Stack.update Samples.host_pivoted Samples.fresh_state)) 0x50000010)
     = Ok None.
Proof. vm_compute. repeat split. Qed.

Lemma first_containing_split a pages q :
  Stack.first_containing a pages = Some q ->
  exists before after, pages = before ++ q :: after
    /\ forall x, In x before -> page_contains x a = false.
Proof.
  unfold Stack.first_containing. induction pages as [| p pages IH]; simpl; [discriminate |].
  destruct (page_contains p a) eqn:Hp.
  - intros [= ->]. exists [], pages. split; [reflexivity | contradiction].
  - intros Hq. destruct (IH Hq) as (before & after & -> & Hbefore).
    exists (p :: before), after. split; [reflexivity |].
    intros x [<- | Hx]; auto.
Qed.

Lemma first_containing_None a pages :
  Stack.first_containing a pages = None
  <-> forall p, In p pages -> page_contains p a = false.
Proof.
  unfold Stack.first_containing. split.
  - intros Hnone p Hin. exact (find_none _ _ Hnone p Hin).
  - intros Hall. destruct (List.find _ pages) as [q |] eqn:Hf; [| reflexivity].
    apply find_some in Hf as [Hin Hc]. rewrite (Hall q Hin) in Hc. discriminate.
Qed.

Lemma first_containing_unique a pages p :
  pages_disjoint pages -> In p pages -> page_contains p a = true ->
  Stack.first_containing a pages = Some p.
Proof.
  unfold Stack.first_containing.
  induction pages as [| x pages IH]; simpl; [contradiction |].
  intros [Hx Hrest] [-> | Hin] Hc.
  - now rewrite Hc.
  - destruct (page_contains x a) eqn:Hxa; [| now apply IH].
    rewrite (Hx p a Hin Hxa) in Hc. discriminate.
Qed.

(** C2, as the code has it: [find] returns the first tracked page, in
    insertion order, that contains the address, and none exactly when no
    tracked page contains it; when the tracked pages do not overlap, it
    returns [p] iff [p] is the tracked page containing the address. *)
Theorem find_first_containing (h : Stack.Host) (s s' : Stack.State)
    (address : Z) (r : option Page) :
  Stack.find h s address = (s', Ok r) ->
  (forall p, r = Some p ->
     page_start p <= address < page_start p + memsz p
     /\ exists before after,
          Stack.dict_values (Stack.stacks s') = before ++ p :: after
          /\ forall q, In q before -> page_contains q address = false)
  /\ (r = None <->
      forall p, In p (Stack.dict_values (Stack.stacks s')) ->
                ~ (page_start p <= address < page_start p + memsz p))
  /\ (pages_disjoint (Stack.dict_values (Stack.stacks s')) ->
      forall p, In p (Stack.dict_values (Stack.stacks s')) ->
        (r = Some p <-> page_start p <= address < page_start p + memsz p)).
Proof.
  intros Hfind.
  assert (Hc : forall p, page_contains p address = true
                         <-> page_start p <= address < page_start p + memsz p).
  { intros p. unfold page_contains, page_end, page_start.
    rewrite andb_true_iff, Z.leb_le, Z.ltb_lt. reflexivity. }
  assert (Hr : r = Stack.first_containing address (Stack.dict_values (Stack.stacks s'))).
  { unfold Stack.find in Hfind.
    destruct (match Stack.stacks s with [] => Stack.update h s | _ :: _ => (s, None) end)
      as [s1 [e |]]; [discriminate |].
    now injection Hfind as <- <-. }
  split; [| split].
  - intros p ->. symmetry in Hr. split.
    + apply Hc. now apply first_containing_Some in Hr.
    + now apply first_containing_split.
  - rewrite Hr, first_containing_None. split; intros Hall p Hin.
    + rewrite <- Hc, (Hall p Hin). discriminate.
    + specialize (Hall p Hin). rewrite <- Hc in Hall.
      now destruct (page_contains p address).
  - intros Hdis p Hin. rewrite <- Hc. split.
    + intros ->. symmetry in Hr. now apply first_containing_Some in Hr.
    + intros Hp. rewrite Hr. now apply first_containing_unique.
Qed.

Lemma find_first_containing_witness :
  Stack.find Samples.host_two_threads Samples.tracked_two 0x7ffd0020
    = (Samples.tracked_two, Ok (Some Samples.main_page))
  /\ page_start Samples.main_page <= 0x7ffd0020
       < page_start Samples.main_page + memsz Samples.main_page.
Proof.
  assert (Hfind : Stack.find Samples.host_two_threads Samples.tracked_two 0x7ffd0020
                  = (Samples.tracked_two, Ok (Some Samples.main_page))) by reflexivity.
  split; [exact Hfind |].
  destruct (find_first_containing _ _ _ _ _ Hfind) as (Hsome & _).
  destruct (Hsome Samples.main_page eq_refl) as [Hin _]. exact Hin.
Defined.

(** C2 as stated fails: after one [update] of a process with two threads
    whose stacks share a readable area, both tracked pages contain the
    address 0x7ffd2010, and [find] returns the first only. *)
Lemma find_overlapping_stacks :
  fst (Stack.update Samples.host_two_threads Samples.fresh_state) = Samples.tracked_two
  /\ Stack.dict_get (4242, 4242, 0) (Stack.stacks Samples.tracked_two)
     = Some Samples.main_page
  /\ Stack.dict_get (4242, 4243, 0) (Stack.stacks Samples.tracked_two)
     = Some Samples.worker_page
  /\ (page_start Samples.main_page <= 0x7ffd2010
        < page_start Samples.main_page + memsz Samples.main_page)
  /\ (page_start Samples.worker_page <= 0x7ffd2010
        < page_start Samples.worker_page + memsz Samples.worker_page)
  /\ snd (Stack.find Samples.host_two_threads Samples.tracked_two 0x7ffd2010)
     = Ok (Some Samples.main_page)
  /\ snd (Stack.find Samples.host_two_threads Samples.tracked_two 0x7ffd2010)
     <> Ok (Some Samples.worker_page).
Proof.
  split; [vm_compute; reflexivity |].
  split; [reflexivity |]. split; [reflexivity |].
  split; [vm_compute; split; [discriminate | reflexivity] |].
  split; [vm_compute; split; [discriminate | reflexivity] |].
  split; [reflexivity | vm_compute; discriminate].
Qed.

(** ** clear *)

(** C7, as the code has it: [clear] empties the map and resets the flag.
    [find] on the cleared map first runs [update]; it returns none
    exactly when that [update] completes and records no page containing
    the address, as when the process has no threads left and no thread
    is selected; a page it returns is one that this [update] has just
    recorded, and contains the address. *)
Theorem clear_then_find (h : Stack.Host) (s : Stack.State) (address : Z) :
  Stack.stacks (Stack.clear s) = []
  /\ Stack.nx (Stack.clear s) = false
  /\ fst (Stack.find h (Stack.clear s) address) = fst (Stack.update h (Stack.clear s))
  /\ (snd (Stack.find h (Stack.clear s) address) = Ok None
      <-> snd (Stack.update h (Stack.clear s)) = None
          /\ forall p,
               In p (Stack.dict_values (Stack.stacks (fst (Stack.update h (Stack.clear s))))) ->
               page_contains p address = false)
  /\ (forall p, snd (Stack.find h (Stack.clear s) address) = Ok (Some p) ->
        In p (Stack.dict_values (Stack.stacks (fst (Stack.update h (Stack.clear s)))))
        /\ page_contains p address = true)
  /\ (Stack.threads h = [] -> Stack.selected s = None ->
      Stack.find h (Stack.clear s) address = (Stack.clear s, Ok None)).
Proof.
  split; [reflexivity |]. split; [reflexivity |].
  unfold Stack.find. simpl Stack.stacks. cbv iota.
  split; [| split; [| split]].
  - destruct (Stack.update h (Stack.clear s)) as [s' [e |]]; reflexivity.
  - destruct (Stack.update h (Stack.clear s)) as [s' [e |]]; simpl.
    + split; [discriminate | intros [[=] _]].
    + rewrite <- first_containing_None. split.
      * intros [= ->]. split; reflexivity.
      * intros [_ ->]. reflexivity.
  - intros p. destruct (Stack.update h (Stack.clear s)) as [s' [e |]]; simpl;
      [discriminate |].
    intros [= Hp]. now apply first_containing_Some in Hp.
  - intros Hts Hsel. unfold Stack.update. rewrite Hts. simpl. rewrite Hsel. reflexivity.
Qed.

Lemma clear_then_find_witness :
  Stack.stacks Samples.tracked_unselected <> []
  /\ Stack.threads Samples.host_exited = []
  /\ Stack.selected Samples.tracked_unselected = None
  /\ Stack.find Samples.host_exited (Stack.clear Samples.tracked_unselected) 0x7ffd0020
     = (Stack.clear Samples.tracked_unselected, Ok None).
Proof.
  split; [discriminate |]. split; [reflexivity |]. split; [reflexivity |].
  apply (clear_then_find Samples.host_exited Samples.tracked_unselected 0x7ffd0020);
    reflexivity.
Defined.

(** C7 as stated fails: on a live process, [find] right after [clear]
    runs [update] itself and returns the main thread's page. *)
Lemma find_after_clear_finds_page :
  Stack.stacks (Stack.clear Samples.tracked_two) = []
  /\ Stack.nx (Stack.clear Samples.tracked_two) = false
  /\ Stack.find Samples.host_two_threads (Stack.clear Samples.tracked_two) 0x7ffd0020
     = (Samples.tracked_two, Ok (Some Samples.main_page))
  /\ snd (Stack.find Samples.host_two_threads (Stack.clear Samples.tracked_two) 0x7ffd0020)
     <> Ok None.
Proof.
  split; [reflexivity |]. split; [reflexivity |].
  split; [vm_compute; reflexivity | vm_compute; discriminate].
Qed.

(** ** Labels *)

(** A page that [update] creates is labelled "[stack]" whatever the
    thread, and keeps that label through later updates. *)
Lemma update_created_label h s ptid p :
  Stack.dict_get ptid (Stack.stacks s) = None ->
  Stack.dict_get ptid (Stack.stacks (fst (Stack.update h s))) = Some p ->
  objfile p = Some "[stack]"%string
  /\ forall calls p',
       Stack.dict_get ptid (Stack.stacks (Stack.updates calls (fst (Stack.update h s))))
         = Some p' ->
       objfile p' = Some "[stack]"%string.
Proof.
  intros H0 H1. destruct (update_fresh_ok h s ptid p H0 H1) as [_ Hlabel].
  split; [exact Hlabel |]. intros calls p' Hp'.
  destruct (updates_grown calls _ ptid p H1) as (q & Hq & _ & _ & _ & Hkeep).
  rewrite Hp' in Hq. injection Hq as <-. now apply Hkeep.
Qed.

(** C8 at a non-leader thread: the worker thread (pid 4242, tid 4243) is
    recorded with the label "[stack]", also after a second [update]; the
    relabelling branch would have given "[stack:4243]". *)
Theorem update_labels_worker_stack :
  Stack.thread_ptid Samples.worker_thread = (4242, 4243, 0)
  /\ Stack.stack_label (4242, 4243, 0) = "[stack:4243]"%string
  /\ (exists p, Stack.dict_get (4242, 4243, 0)
                  (Stack.stacks (fst (Stack.update Samples.host_two_threads
                                        Samples.fresh_state))) = Some p
                /\ objfile p = Some "[stack]"%string)
  /\ (exists p, Stack.dict_get (4242, 4243, 0)
                  (Stack.stacks
                     (fst (Stack.update Samples.host_two_threads
                             (fst (Stack.update Samples.host_two_threads
                                     Samples.fresh_state))))) = Some p
                /\ objfile p = Some "[stack]"%string).
Proof.
  split; [reflexivity |]. split; [vm_compute; reflexivity |].
  split; exists Samples.worker_page; split; vm_compute; reflexivity.
Qed.

(** ** The canary command *)

Section CanaryLoop.

Variable e : Canary.Env.
Variable all : bool.

Lemma displayed_take (ms : list Z) :
  take (Canary.num_canaries_to_display all ms) ms = Canary.displayed all ms.
Proof.
  unfold Canary.num_canaries_to_display, Canary.displayed,
    Canary.default_num_canaries_to_display.
  destruct all; simpl negb; cbv iota.
  - apply firstn_all.
  - destruct (Nat.le_gt_cases 2 (length ms)) as [Hle | Hgt].
    + now rewrite Nat.min_l.
    + rewrite Nat.min_r by lia. rewrite firstn_all. symmetry. apply take_ge. lia.
Qed.

Lemma displayed_length (ms : list Z) :
  length (Canary.displayed all ms) = Canary.num_canaries_to_display all ms.
Proof.
  rewrite <- displayed_take. rewrite length_take.
  unfold Canary.num_canaries_to_display, Canary.default_num_canaries_to_display.
  destruct all; cbn [negb]; lia.
Qed.

Lemma canary_thread_report (packed : list Byte.byte) (st : Canary.Loop)
    (entry : Z * Page) (tm : Z * list Z) :
  fst tm = fst entry ->
  Canary.search e packed (page_start (snd entry)) (page_end (snd entry)) = Ok (snd tm) ->
  Canary.canary_thread e all packed st entry
  = (Canary.mkLoop (Canary.found_canaries st || Canary.has_match tm)
                   (Canary.results_hidden st || Canary.truncated all tm)
                   (Canary.printed st ++ Canary.thread_report all tm),
     None).
Proof.
  destruct entry as [thread stack]. destruct tm as [thread' ms].
  destruct st as [found hidden out]. simpl. intros -> Hsearch.
  unfold Canary.canary_thread, Canary.has_match, Canary.truncated, Canary.thread_report.
  rewrite Hsearch. simpl fst; simpl snd.
  destruct ms as [| m ms].
  - simpl. now rewrite !orb_false_r, app_nil_r.
  - cbv zeta. rewrite displayed_take, displayed_length. simpl Canary.found_canaries.
    simpl Canary.results_hidden. simpl Canary.printed.
    rewrite orb_true_r. do 2 f_equal.
    destruct (_ <? _)%nat; [now rewrite orb_true_r | now rewrite orb_false_r].
Qed.

(** The loop, over whatever thread dictionary it is given: threads
    without a match add nothing, the others their header line and the
    displayed part of their matches. *)
Lemma canary_loop_report (packed : list Byte.byte) (thread_stacks : list (Z * Page))
    (tms : list (Z * list Z)) :
  Canary.searches_give e packed thread_stacks tms ->
  forall st,
    Canary.canary_loop e all packed thread_stacks st
    = (Canary.mkLoop (Canary.found_canaries st || existsb Canary.has_match tms)
                     (Canary.results_hidden st || existsb (Canary.truncated all) tms)
                     (Canary.printed st ++ concat (map (Canary.thread_report all) tms)),
       None).
Proof.
  unfold Canary.searches_give.
  induction 1 as [| entry tm entries tms [Hthread Hsearch] Hrest IH]; intros st; simpl.
  - destruct st. simpl. now rewrite !orb_false_r, app_nil_r.
  - rewrite (canary_thread_report packed st entry tm Hthread Hsearch), IH. simpl.
    now rewrite !orb_assoc, app_assoc.
Qed.

End CanaryLoop.

Lemma truncated_spec (all : bool) (tm : Z * list Z) :
  Canary.truncated all tm = negb all && (2 <? length (snd tm))%nat.
Proof.
  unfold Canary.truncated, Canary.displayed. destruct all; simpl.
  - apply Nat.ltb_irrefl.
  - rewrite length_take.
    destruct (Nat.ltb_spec 2 (length (snd tm)));
      [apply Nat.ltb_lt | apply Nat.ltb_ge]; lia.
Qed.

(** Once AT_RANDOM has been read and the canary packed, the command has
    printed its two notices and fails on [pwndbg.gdblib.stack.get]. *)
Lemma canary_raises_at_stack_get (e : Canary.Env) (all : bool)
    (global_canary at_random : Z) (packed : list Byte.byte) :
  Canary.canary_value e = Ok (Some global_canary, Some at_random) ->
  Canary.pack e global_canary = Ok packed ->
  Canary.canary e all
  = ([Canary.NoticeAtRandom at_random; Canary.NoticeCanary global_canary],
     Some AttributeError).
Proof. intros Hval Hpack. unfold Canary.canary. now rewrite Hval, Hpack. Qed.

(** C5 at five matches on one thread: after the two notices [canary]
    raises AttributeError at [pwndbg.gdblib.stack.get()], with and
    without [all], so no match is displayed and no truncation or found
    outcome is reported.  The loop below that call, run on the two
    threads' stacks, does what the claim says: it skips the thread
    without matches, displays 2 of the 5 and sets the truncation flag
    without [all], displays all 5 and leaves the flag false with it. *)
Theorem canary_stops_at_stack_get :
  Canary.canary_value Samples.env_five_matches
    = Ok (Some 0x4141414141414100, Some 0x7ffe1000)
  /\ Canary.canary Samples.env_five_matches false
     = ([Canary.NoticeAtRandom 0x7ffe1000; Canary.NoticeCanary 0x4141414141414100],
        Some AttributeError)
  /\ Canary.canary Samples.env_five_matches true
     = ([Canary.NoticeAtRandom 0x7ffe1000; Canary.NoticeCanary 0x4141414141414100],
        Some AttributeError)
  /\ Canary.canary_loop Samples.env_five_matches false [] Samples.two_thread_stacks
       (Canary.mkLoop false false [])
     = (Canary.mkLoop true true
          [Canary.SuccessThread 1; Canary.Telescope 0x7ffd0018;
           Canary.Telescope 0x7ffd0058],
        None)
  /\ Canary.canary_loop Samples.env_five_matches true [] Samples.two_thread_stacks
       (Canary.mkLoop false false [])
     = (Canary.mkLoop true false
          [Canary.SuccessThread 1; Canary.Telescope 0x7ffd0018;
           Canary.Telescope 0x7ffd0058; Canary.Telescope 0x7ffd0098;
           Canary.Telescope 0x7ffd00d8; Canary.Telescope 0x7ffd0118],
        None).
Proof. repeat split; vm_compute; reflexivity. Qed.

(** * Further properties of the tracker *)

(** ** Failures of [update] *)

Lemma update_thread_error h t s :
  snd (Stack.update_thread h t s) = thread_error h t.
Proof.
  unfold Stack.update_thread, Stack.switch, thread_error, Stack.regs_sp.
  destruct (Stack.thread_valid t); [| reflexivity]. simpl Stack.selected.
  destruct (Stack.read_sp h (Some t)) as [[sp |] |]; try reflexivity.
  destruct (sp =? 0); [reflexivity |]. simpl Stack.stacks.
  destruct (Stack.dict_get (Stack.thread_ptid t) (Stack.stacks s)); reflexivity.
Qed.

Lemma update_thread_error_stacks h t s e :
  thread_error h t = Some e ->
  Stack.stacks (fst (Stack.update_thread h t s)) = Stack.stacks s.
Proof.
  unfold Stack.update_thread, Stack.switch, thread_error, Stack.regs_sp.
  destruct (Stack.thread_valid t); [| reflexivity]. simpl Stack.selected.
  destruct (Stack.read_sp h (Some t)) as [[sp |] |]; try discriminate. reflexivity.
Qed.

Lemma update_loop_error h ts : forall s,
  snd (Stack.update_loop h ts s) = first_error h ts.
Proof.
  induction ts as [| t ts IH]; intros s; simpl; [reflexivity |].
  pose proof (update_thread_error h t s) as Herr.
  destruct (Stack.update_thread h t s) as [s' [e |]]; simpl in *; rewrite <- Herr;
    [reflexivity | apply IH].
Qed.

Lemma update_loop_app h ts1 ts2 s :
  Stack.update_loop h (ts1 ++ ts2) s
  = match Stack.update_loop h ts1 s with
    | (s', None) => Stack.update_loop h ts2 s'
    | (s', Some e) => (s', Some e)
    end.
Proof.
  revert s. induction ts1 as [| t ts1 IH]; intros s; simpl; [reflexivity |].
  destruct (Stack.update_thread h t s) as [s' [e |]]; [reflexivity | apply IH].
Qed.

Lemma first_error_None h ts :
  first_error h ts = None
  <-> forall t, In t ts ->
        Stack.thread_valid t = true /\ exists o, Stack.read_sp h (Some t) = Ok o.
Proof.
  induction ts as [| t ts IH]; simpl.
  - split; [contradiction | reflexivity].
  - unfold thread_error at 1. split.
    + intros Hnone t' [<- | Hin].
      * destruct (Stack.thread_valid t); [| discriminate].
        destruct (Stack.read_sp h (Some t)); [eauto | discriminate].
      * destruct (Stack.thread_valid t); [| discriminate].
        destruct (Stack.read_sp h (Some t)); [| discriminate].
        now apply IH.
    + intros Hall. destruct (Hall t (or_introl eq_refl)) as [-> [o ->]].
      apply IH. intros t' Hin. apply Hall. now right.
Qed.

(** X1: [update] raises exactly when some thread cannot be switched to or
    its stack pointer cannot be read, and then with the failure of the
    first such thread; the threads after it are not visited, while what
    the threads before it recorded stays in the map. *)
Theorem update_failure (h : Stack.Host) (s : Stack.State) :
  (forall c, Stack.selected s = Some c -> Stack.thread_valid c = true) ->
  snd (Stack.update h s) = first_error h (Stack.threads h)
  /\ (snd (Stack.update h s) = None
      <-> forall t, In t (Stack.threads h) ->
            Stack.thread_valid t = true /\ exists o, Stack.read_sp h (Some t) = Ok o)
  /\ (forall before t after e,
        Stack.threads h = before ++ t :: after ->
        first_error h before = None -> thread_error h t = Some e ->
        snd (Stack.update h s) = Some e
        /\ Stack.stacks (fst (Stack.update h s))
           = Stack.stacks (fst (Stack.update_loop h before s))).
Proof.
  intros Hsel.
  assert (Herr : snd (Stack.update h s) = first_error h (Stack.threads h)).
  { rewrite <- (update_loop_error h (Stack.threads h) s). unfold Stack.update.
    destruct (Stack.update_loop h (Stack.threads h) s) as [s' e]. simpl.
    destruct (Stack.selected s) as [c |] eqn:Hc; [| reflexivity].
    unfold Stack.switch. rewrite (Hsel c eq_refl). reflexivity. }
  split; [exact Herr |]. split.
  - rewrite Herr. apply first_error_None.
  - intros before t after e Hts Hbefore Ht.
    rewrite Herr, update_stacks, Hts, update_loop_app.
    pose proof (update_loop_error h before s) as Hb. rewrite Hbefore in Hb.
    destruct (Stack.update_loop h before s) as [s1 e1]. simpl in Hb. subst e1.
    cbn [Stack.update_loop].
    pose proof (update_thread_error h t s1) as Hte. rewrite Ht in Hte.
    pose proof (update_thread_error_stacks h t s1 e Ht) as Hst.
    destruct (Stack.update_thread h t s1) as [s2 [e2 |]]; simpl in *; [| discriminate].
    split; [| exact Hst].
    clear - Hbefore Ht. induction before as [| b before IH]; simpl.
    + now rewrite Ht.
    + simpl in Hbefore. destruct (thread_error h b); [discriminate | now apply IH].
Qed.

Lemma update_failure_witness :
  (forall c, Stack.selected Samples.fresh_state = Some c -> Stack.thread_valid c = true)
  /\ Stack.threads Samples.host_thread_gone
     = [Samples.main_thread] ++ Samples.gone_thread :: [Samples.late_thread]
  /\ snd (Stack.update Samples.host_thread_gone Samples.fresh_state) = Some GdbError
  /\ Stack.stacks (fst (Stack.update Samples.host_thread_gone Samples.fresh_state))
     = Stack.stacks (fst (Stack.update_loop Samples.host_thread_gone
                            [Samples.main_thread] Samples.fresh_state)).
Proof.
  assert (Hsel : forall c, Stack.selected Samples.fresh_state = Some c ->
                           Stack.thread_valid c = true)
    by (intros c [= <-]; reflexivity).
  split; [exact Hsel |]. split; [reflexivity |].
  destruct (update_failure Samples.host_thread_gone Samples.fresh_state Hsel)
    as (_ & _ & Hpartial).
  apply (Hpartial [Samples.main_thread] Samples.gone_thread [Samples.late_thread]);
    reflexivity.
Defined.

(** ** Threads without a stack pointer *)

Lemma update_thread_skip h t s :
  no_stack_pointer h t ->
  Stack.stacks (fst (Stack.update_thread h t s)) = Stack.stacks s
  /\ Stack.nx (fst (Stack.update_thread h t s)) = Stack.nx s.
Proof.
  unfold Stack.update_thread, Stack.switch, Stack.regs_sp.
  destruct (Stack.thread_valid t); [| split; reflexivity]. simpl Stack.selected.
  intros [-> | ->]; split; reflexivity.
Qed.

Lemma update_loop_skip_key h k ts : forall s,
  (forall t, In t ts -> Stack.thread_ptid t = k -> no_stack_pointer h t) ->
  Stack.dict_get k (Stack.stacks (fst (Stack.update_loop h ts s)))
  = Stack.dict_get k (Stack.stacks s).
Proof.
  induction ts as [| t ts IH]; intros s Hskip; simpl; [reflexivity |].
  assert (Hstep : Stack.dict_get k (Stack.stacks (fst (Stack.update_thread h t s)))
                  = Stack.dict_get k (Stack.stacks s)).
  { destruct (decide (Stack.thread_ptid t = k)) as [Heq | Hne].
    - destruct (update_thread_skip h t s (Hskip t (or_introl eq_refl) Heq)) as [-> _].
      reflexivity.
    - now apply update_thread_other. }
  destruct (Stack.update_thread h t s) as [s' [e |]]; simpl in *; [exact Hstep |].
  rewrite IH; [exact Hstep |]. intros t' Hin. apply Hskip. now right.
Qed.

Lemma update_loop_skip_all h ts : forall s,
  (forall t, In t ts -> no_stack_pointer h t) ->
  Stack.stacks (fst (Stack.update_loop h ts s)) = Stack.stacks s
  /\ Stack.nx (fst (Stack.update_loop h ts s)) = Stack.nx s.
Proof.
  induction ts as [| t ts IH]; intros s Hskip; simpl; [split; reflexivity |].
  destruct (update_thread_skip h t s (Hskip t (or_introl eq_refl))) as [Hst Hnx].
  destruct (Stack.update_thread h t s) as [s' [e |]]; simpl in *; [now split |].
  destruct (IH s') as [Hst' Hnx']; [intros t' Hin; apply Hskip; now right |].
  split; congruence.
Qed.

(** X2: a thread whose stack pointer is unavailable or zero is skipped:
    if every thread with a given ptid is such a thread, [update] leaves
    that ptid's entry as it was (absent stays absent), and if all threads
    are, the whole map stays as it was. *)
Theorem update_skips_no_stack_pointer (h : Stack.Host) (s : Stack.State) :
  (forall ptid,
     (forall t, In t (Stack.threads h) -> Stack.thread_ptid t = ptid ->
                no_stack_pointer h t) ->
     Stack.dict_get ptid (Stack.stacks (fst (Stack.update h s)))
     = Stack.dict_get ptid (Stack.stacks s))
  /\ ((forall t, In t (Stack.threads h) -> no_stack_pointer h t) ->
      Stack.stacks (fst (Stack.update h s)) = Stack.stacks s).
Proof.
  rewrite update_stacks. split.
  - intros ptid Hskip. now apply update_loop_skip_key.
  - intros Hskip. now apply update_loop_skip_all.
Qed.

Lemma update_skips_no_stack_pointer_witness :
  (forall t, In t (Stack.threads Samples.host_kernel) ->
             no_stack_pointer Samples.host_kernel t)
  /\ Stack.stacks (fst (Stack.update Samples.host_kernel Samples.fresh_state))
     = Stack.stacks Samples.fresh_state.
Proof.
  assert (Hskip : forall t, In t (Stack.threads Samples.host_kernel) ->
                            no_stack_pointer Samples.host_kernel t)
    by (intros t _; right; reflexivity).
  split; [exact Hskip |].
  apply (proj2 (update_skips_no_stack_pointer Samples.host_kernel Samples.fresh_state)).
  exact Hskip.
Defined.

(** ** What a visit leaves behind *)

Lemma dict_set_same k p d :
  Stack.dict_get k d = Some p -> Stack.dict_set k p d = d.
Proof.
  induction d as [| [k' p'] d IH]; simpl; [discriminate |].
  destruct (bool_decide (k' = k)) eqn:E.
  - apply bool_decide_eq_true_1 in E. now intros [= ->]; subst.
  - intros H. now rewrite IH.
Qed.

(** After a visit that did not raise, a thread with a usable stack
    pointer has a labelled page starting at least one page below the
    aligned pointer. *)
Lemma update_thread_settles h t s sp :
  thread_error h t = None ->
  Stack.read_sp h (Some t) = Ok (Some sp) -> sp <> 0 ->
  exists p, Stack.dict_get (Stack.thread_ptid t)
              (Stack.stacks (fst (Stack.update_thread h t s))) = Some p
            /\ vaddr p <= Z.land sp (Z.lnot 0xFFF) - 0x1000
            /\ objfile p <> None.
Proof.
  unfold thread_error, Stack.update_thread, Stack.switch, Stack.regs_sp.
  destruct (Stack.thread_valid t); [| discriminate]. simpl Stack.selected.
  intros _ -> Hnz. destruct (Z.eqb_spec sp 0); [contradiction |].
  simpl Stack.stacks.
  destruct (Stack.dict_get (Stack.thread_ptid t) (Stack.stacks s)) as [page |]; simpl;
    rewrite dict_get_set_eq; eexists; (split; [reflexivity |]).
  - destruct (objfile page) eqn:Hobj.
    + destruct (Z.eqb_spec (Z.min (vaddr page) (Z.land sp (Z.lnot 4095) - 4096))
                  (vaddr page)); simpl; rewrite ?Hobj; split; (lia || discriminate).
    + simpl. destruct (Z.eqb_spec (Z.min (vaddr page) (Z.land sp (Z.lnot 4095) - 4096))
                         (vaddr page)); simpl; split; (lia || discriminate).
  - simpl. split; [lia | discriminate].
Qed.

(** A visit changes nothing when the thread's page already reaches a
    page below its pointer and is labelled. *)
Lemma update_thread_settled h t s sp p :
  Stack.read_sp h (Some t) = Ok (Some sp) ->
  Stack.dict_get (Stack.thread_ptid t) (Stack.stacks s) = Some p ->
  vaddr p <= Z.land sp (Z.lnot 0xFFF) - 0x1000 -> objfile p <> None ->
  Stack.stacks (fst (Stack.update_thread h t s)) = Stack.stacks s.
Proof.
  intros Hsp Hget Hlow Hobj.
  unfold Stack.update_thread, Stack.switch, Stack.regs_sp.
  destruct (Stack.thread_valid t); [| reflexivity]. simpl Stack.selected.
  rewrite Hsp. destruct (sp =? 0); [reflexivity |].
  simpl Stack.stacks. rewrite Hget.
  destruct (objfile p) eqn:Hp; [| contradiction].
  rewrite Z.min_l by exact Hlow. rewrite Z.eqb_refl. simpl.
  now apply dict_set_same.
Qed.

Lemma update_thread_fixed h t s s2 :
  dict_grown (Stack.stacks (fst (Stack.update_thread h t s))) (Stack.stacks s2) ->
  Stack.stacks (fst (Stack.update_thread h t s2)) = Stack.stacks s2.
Proof.
  intros Hgrown.
  destruct (thread_error h t) as [e |] eqn:Herr;
    [now apply update_thread_error_stacks with e |].
  destruct (Stack.read_sp h (Some t)) as [[sp |] |] eqn:Hsp.
  - destruct (Z.eq_dec sp 0) as [-> | Hnz].
    + apply update_thread_skip. now right.
    + destruct (update_thread_settles h t s sp Herr Hsp Hnz) as (p & Hp & Hlow & Hobj).
      destruct (Hgrown _ _ Hp) as (q & Hq & Hle & _ & _ & Hlabel).
      apply update_thread_settled with sp q; [assumption | assumption | lia |].
      destruct (objfile p) as [l |]; [| contradiction]. now rewrite (Hlabel l eq_refl).
  - apply update_thread_skip. now left.
  - unfold thread_error in Herr. rewrite Hsp in Herr.
    destruct (Stack.thread_valid t); discriminate.
Qed.

Lemma update_loop_fixed h ts : forall s s2,
  dict_grown (Stack.stacks (fst (Stack.update_loop h ts s))) (Stack.stacks s2) ->
  Stack.stacks (fst (Stack.update_loop h ts s2)) = Stack.stacks s2.
Proof.
  induction ts as [| t ts IH]; intros s s2 Hgrown; simpl in *; [reflexivity |].
  pose proof (update_thread_fixed h t s s2) as Hfix.
  pose proof (update_thread_error h t s) as He1.
  pose proof (update_thread_error h t s2) as He2.
  pose proof (update_loop_grown h ts) as Hloop.
  destruct (Stack.update_thread h t s) as [s' e1].
  destruct (Stack.update_thread h t s2) as [s2' e2]. simpl in *.
  assert (e2 = e1) as -> by congruence.
  destruct e1 as [e |]; simpl in *; [now apply Hfix |].
  assert (Hst : Stack.stacks s2' = Stack.stacks s2).
  { apply Hfix. eapply dict_grown_trans; [apply (Hloop s') | exact Hgrown]. }
  rewrite <- Hst. apply (IH s'). now rewrite Hst.
Qed.

(** X3: [update] is idempotent on the map: run again in the same
    debugger state (whichever thread is then selected, and whether or not
    the first run raised), it changes no entry. *)
Theorem update_idempotent (h : Stack.Host) (s : Stack.State)
    (sel : option Stack.Thread) :
  Stack.stacks (fst (Stack.update h (Stack.set_selected sel (fst (Stack.update h s)))))
  = Stack.stacks (fst (Stack.update h s)).
Proof.
  rewrite (update_stacks h (Stack.set_selected sel _)).
  rewrite (update_loop_fixed h (Stack.threads h) s); [reflexivity |].
  simpl Stack.stacks. rewrite update_stacks. apply dict_grown_refl.
Qed.

Lemma update_loop_settles h t sp ts : forall s,
  first_error h ts = None -> In t ts ->
  Stack.read_sp h (Some t) = Ok (Some sp) -> sp <> 0 ->
  exists p, Stack.dict_get (Stack.thread_ptid t)
              (Stack.stacks (fst (Stack.update_loop h ts s))) = Some p
            /\ vaddr p <= Z.land sp (Z.lnot 0xFFF) - 0x1000
            /\ objfile p <> None.
Proof.
  induction ts as [| t0 ts IH]; intros s Hok Hin Hsp Hnz; simpl in *; [contradiction |].
  destruct (thread_error h t0) eqn:Herr; [discriminate |].
  pose proof (update_thread_error h t0 s) as He. rewrite Herr in He.
  pose proof (update_thread_settles h t0 s sp Herr) as Hset.
  pose proof (update_loop_grown h ts) as Hloop.
  destruct (Stack.update_thread h t0 s) as [s' e]. simpl in *. subst e.
  destruct Hin as [-> | Hin]; [| now apply IH].
  destruct (Hset Hsp Hnz) as (p & Hp & Hlow & Hobj).
  destruct (Hloop s' _ _ Hp) as (q & Hq & Hle & _ & _ & Hlabel).
  exists q. split; [exact Hq |]. split; [lia |].
  destruct (objfile p) as [l |]; [| contradiction]. now rewrite (Hlabel l eq_refl).
Qed.

(** X4: after an [update] that did not raise, every thread with a
    nonzero stack pointer is tracked by a labelled page whose lower bound
    lies at least one whole page below the pointer, be the page new or
    known before. *)
Theorem update_tracks_every_thread (h : Stack.Host) (s : Stack.State)
    (t : Stack.Thread) (sp : Z) :
  snd (Stack.update h s) = None ->
  In t (Stack.threads h) ->
  Stack.read_sp h (Some t) = Ok (Some sp) -> sp <> 0 ->
  exists p, Stack.dict_get (Stack.thread_ptid t) (Stack.stacks (fst (Stack.update h s)))
            = Some p
            /\ vaddr p + 0x1000 <= sp - sp mod 0x1000
            /\ vaddr p + 0x1000 <= sp
            /\ exists label, objfile p = Some label.
Proof.
  intros Hok Hin Hsp Hnz. apply update_ok_loop_ok in Hok.
  rewrite update_loop_error in Hok. rewrite update_stacks.
  destruct (update_loop_settles h t sp _ s Hok Hin Hsp Hnz) as (p & Hp & Hlow & Hobj).
  rewrite align_down_mod in Hlow.
  pose proof (Z.mod_pos_bound sp 0x1000 ltac:(lia)) as Hmod.
  exists p. split; [exact Hp |]. split; [lia |]. split; [lia |].
  destruct (objfile p) as [l |]; [eauto | contradiction].
Qed.

Lemma update_tracks_every_thread_witness :
  snd (Stack.update Samples.host_deeper Samples.tracked_two) = None
  /\ In Samples.main_thread (Stack.threads Samples.host_deeper)
  /\ Stack.read_sp Samples.host_deeper (Some Samples.main_thread) = Ok (Some 0x7ffcd010)
  /\ exists p, Stack.dict_get (4242, 4242, 0)
                 (Stack.stacks (fst (Stack.update Samples.host_deeper Samples.tracked_two)))
               = Some p
               /\ vaddr p + 0x1000 <= 0x7ffcd010 - 0x7ffcd010 mod 0x1000
               /\ vaddr p + 0x1000 <= 0x7ffcd010
               /\ exists label, objfile p = Some label.
Proof.
  split; [reflexivity |]. split; [left; reflexivity |]. split; [reflexivity |].
  apply (update_tracks_every_thread Samples.host_deeper Samples.tracked_two
           Samples.main_thread 0x7ffcd010);
    [reflexivity | left; reflexivity | reflexivity | discriminate].
Defined.

(** X5: over any run of [update] calls a tracked page keeps its upper
    bound and its permission value, and a label once set: neither is
    ever recomputed for a thread already known. *)
Theorem updates_keep_end_flags_label
    (calls : list (Stack.Host * option Stack.Thread)) (s : Stack.State)
    (ptid : Z * Z * Z) (p : Page) :
  Stack.dict_get ptid (Stack.stacks s) = Some p ->
  exists q, Stack.dict_get ptid (Stack.stacks (Stack.updates calls s)) = Some q
            /\ page_end q = page_end p
            /\ flags q = flags p
            /\ (forall label, objfile p = Some label -> objfile q = Some label).
Proof.
  intros Hp. destruct (updates_grown calls s ptid p Hp) as (q & Hq & _ & Hend & Hf & Hl).
  exists q. unfold page_end. auto.
Qed.

Lemma updates_keep_end_flags_label_witness :
  Stack.dict_get (4242, 4242, 0) (Stack.stacks Samples.tracked_two)
    = Some Samples.main_page
  /\ exists q, Stack.dict_get (4242, 4242, 0)
                 (Stack.stacks (Stack.updates [(Samples.host_deeper, None)]
                                  Samples.tracked_two)) = Some q
               /\ page_end q = page_end Samples.main_page
               /\ flags q = flags Samples.main_page
               /\ (forall label, objfile Samples.main_page = Some label ->
                                 objfile q = Some label).
Proof.
  split; [reflexivity |].
  apply (updates_keep_end_flags_label [(Samples.host_deeper, None)] Samples.tracked_two).
  reflexivity.
Defined.

(** ** [find] across updates *)

Lemma grown_contains p q a :
  grown p q -> page_contains p a = true -> page_contains q a = true.
Proof.
  unfold grown, page_contains, page_start, page_end. intros (Hle & Hend & _).
  rewrite !andb_true_iff, !Z.leb_le, !Z.ltb_lt. lia.
Qed.

Lemma pages_grown_refl ps : pages_grown ps ps.
Proof.
  exists ps, []. split; [now rewrite app_nil_r |].
  induction ps; constructor; [apply grown_refl | assumption].
Qed.

Lemma Forall2_grown_trans ps : forall qs rs,
  Forall2 grown ps qs -> Forall2 grown qs rs -> Forall2 grown ps rs.
Proof.
  induction ps as [| p ps IH]; intros qs rs H1 H2; inversion H1; subst;
    inversion H2; subst; constructor.
  - eapply grown_trans; eassumption.
  - eapply IH; eassumption.
Qed.

Lemma pages_grown_trans ps qs rs :
  pages_grown ps qs -> pages_grown qs rs -> pages_grown ps rs.
Proof.
  intros (k1 & n1 & -> & H1) (k2 & n2 & -> & H2).
  apply Forall2_app_inv_l in H2 as (k2a & k2b & Ha & Hb & ->).
  exists k2a, (k2b ++ n2). split; [now rewrite app_assoc |].
  eapply Forall2_grown_trans; eassumption.
Qed.

Lemma dict_set_pages_grown k q d :
  (forall p, Stack.dict_get k d = Some p -> grown p q) ->
  pages_grown (Stack.dict_values d) (Stack.dict_values (Stack.dict_set k q d)).
Proof.
  unfold Stack.dict_values. induction d as [| [k' p'] d IH]; simpl; intros Hg.
  - exists [], [q]. split; [reflexivity | constructor].
  - destruct (bool_decide (k' = k)) eqn:E; simpl.
    + exists (q :: map snd d), []. split; [now rewrite app_nil_r |].
      constructor; [now apply Hg |].
      clear. induction d; constructor; [apply grown_refl | assumption].
    + destruct (IH Hg) as (kept & new & Heq & Hall).
      exists (p' :: kept), new. split; [simpl; now rewrite Heq |].
      constructor; [apply grown_refl | assumption].
Qed.

Lemma update_thread_pages_grown h t s :
  pages_grown (Stack.dict_values (Stack.stacks s))
              (Stack.dict_values (Stack.stacks (fst (Stack.update_thread h t s)))).
Proof.
  unfold Stack.update_thread, Stack.switch.
  destruct (Stack.thread_valid t); [| apply pages_grown_refl].
  destruct (Stack.regs_sp h _) as [[sp |] |]; try apply pages_grown_refl.
  destruct (sp =? 0); [apply pages_grown_refl |].
  simpl Stack.stacks.
  destruct (Stack.dict_get (Stack.thread_ptid t) (Stack.stacks s)) as [page |] eqn:Hget;
    simpl; apply dict_set_pages_grown; rewrite Hget; [| discriminate].
  intros p [= <-]. apply relabel_extend_grown.
Qed.

Lemma update_loop_pages_grown h ts : forall s,
  pages_grown (Stack.dict_values (Stack.stacks s))
              (Stack.dict_values (Stack.stacks (fst (Stack.update_loop h ts s)))).
Proof.
  induction ts as [| t ts IH]; intros s; simpl; [apply pages_grown_refl |].
  pose proof (update_thread_pages_grown h t s) as Hstep.
  destruct (Stack.update_thread h t s) as [s' [e |]]; simpl in *; [exact Hstep |].
  eapply pages_grown_trans; [exact Hstep | apply IH].
Qed.

Lemma updates_pages_grown calls : forall s,
  pages_grown (Stack.dict_values (Stack.stacks s))
              (Stack.dict_values (Stack.stacks (Stack.updates calls s))).
Proof.
  induction calls as [| [h sel] calls IH]; intros s; simpl; [apply pages_grown_refl |].
  eapply pages_grown_trans; [| apply IH].
  rewrite update_stacks. apply (update_loop_pages_grown h _ (Stack.set_selected sel s)).
Qed.

Lemma pages_grown_contains ps qs p a :
  pages_grown ps qs -> In p ps -> page_contains p a = true ->
  exists q, In q qs /\ page_contains q a = true.
Proof.
  intros (kept & new & -> & Hall) Hin Hc.
  induction Hall as [| p0 q0 ps kept Hpq Hall IH]; [contradiction |].
  destruct Hin as [-> | Hin].
  - exists q0. split; [now left | eapply grown_contains; eassumption].
  - destruct (IH Hin) as (q & Hq & Hqc). exists q. split; [now right | exact Hqc].
Qed.

(** X6: [find] does not forget: once it has returned a page for an
    address, it returns a page containing that address after any further
    run of [update] calls, without running [update] itself. *)
Theorem find_stable_under_updates (h h' : Stack.Host) (s s1 : Stack.State)
    (address : Z) (p : Page) (calls : list (Stack.Host * option Stack.Thread)) :
  Stack.find h s address = (s1, Ok (Some p)) ->
  exists q, Stack.find h' (Stack.updates calls s1) address
            = (Stack.updates calls s1, Ok (Some q))
            /\ page_contains q address = true.
Proof.
  intros Hfind.
  assert (Hp : Stack.first_containing address (Stack.dict_values (Stack.stacks s1))
               = Some p).
  { unfold Stack.find in Hfind.
    destruct (match Stack.stacks s with [] => Stack.update h s | _ :: _ => (s, None) end)
      as [s0 [e |]]; [discriminate |].
    now injection Hfind as <- <-. }
  apply first_containing_Some in Hp as [Hin Hc].
  destruct (pages_grown_contains _ _ p address (updates_pages_grown calls s1) Hin Hc)
    as (q & Hq & Hqc).
  assert (Hne : Stack.stacks (Stack.updates calls s1) <> []).
  { intros E. rewrite E in Hq. contradiction. }
  rewrite find_known by exact Hne.
  destruct (first_containing_In address _ q Hq Hqc) as [q' Hq'].
  exists q'. rewrite Hq'. split; [reflexivity |].
  now apply first_containing_Some in Hq'.
Qed.

Lemma find_stable_under_updates_witness :
  Stack.find Samples.host_two_threads Samples.fresh_state 0x7ffd0020
    = (Samples.tracked_two, Ok (Some Samples.main_page))
  /\ exists q, Stack.find Samples.host_exited
                 (Stack.updates [(Samples.host_deeper, None)] Samples.tracked_two)
                 0x7ffd0020
               = (Stack.updates [(Samples.host_deeper, None)] Samples.tracked_two,
                  Ok (Some q))
               /\ page_contains q 0x7ffd0020 = true.
Proof.
  assert (Hfind : Stack.find Samples.host_two_threads Samples.fresh_state 0x7ffd0020
                  = (Samples.tracked_two, Ok (Some Samples.main_page)))
    by (vm_compute; reflexivity).
  split; [exact Hfind |].
  exact (find_stable_under_updates _ Samples.host_exited _ _ _ _
           [(Samples.host_deeper, None)] Hfind).
Defined.

(** ** What [find_addr_on_stack] can return *)

Section ScanStackSound.

Variable u : Z -> Res Z.
Variables addr start stop ps : Z.
Hypothesis ps_pos : 0 < ps.

Lemma scan_stack_outside (fuel : nat) (sp : Z) :
  ~ (start <= sp < stop) ->
  Stack.scan_stack u addr start stop ps fuel sp = Some (Ok 0).
Proof.
  intros Hout. destruct fuel; simpl;
    (destruct (Z.leb_spec start sp); [| reflexivity]);
    (destruct (Z.ltb_spec sp stop); [lia | reflexivity]).
Qed.

Lemma scan_stack_sound (fuel : nat) : forall sp a,
  Stack.scan_stack u addr start stop ps fuel sp = Some (Ok a) ->
  (exists k : nat, a = sp + Z.of_nat k * ps /\ start <= a < stop
                   /\ u a = Ok addr /\ Stack.no_match_before u addr ps sp k)
  \/ (a = 0 /\ forall k : nat, start <= sp -> sp + Z.of_nat k * ps < stop ->
                 exists v, u (sp + Z.of_nat k * ps) = Ok v /\ v <> addr).
Proof.
  induction fuel as [| fuel IH]; intros sp a; simpl.
  - destruct ((start <=? sp) && (sp <? stop)) eqn:Hin; [discriminate |].
    intros [= <-]. right. split; [reflexivity |]. intros k Hlo Hhi.
    apply andb_false_iff in Hin as [Hf%Z.leb_gt | Hf%Z.ltb_ge]; nia.
  - destruct ((start <=? sp) && (sp <? stop)) eqn:Hin.
    + apply andb_true_iff in Hin as [Hlo%Z.leb_le Hhi%Z.ltb_lt].
      destruct (u sp) as [v |] eqn:Hu; [| discriminate].
      destruct (Z.eqb_spec v addr) as [-> | Hne].
      * intros [= <-]. left. exists O.
        split; [lia |]. split; [lia |]. split; [exact Hu |]. intros j Hj. lia.
      * intros Hrest. destruct (IH _ _ Hrest) as [(k & -> & Hrange & Hhit & Hbefore) | [-> Hnone]].
        -- left. exists (S k). split; [lia |]. split; [exact Hrange |].
           split; [exact Hhit |].
           intros [| j] Hj.
           ++ exists v. split; [| exact Hne]. rewrite <- Hu. f_equal. lia.
           ++ destruct (Hbefore j) as (w & Hw & Hwne); [lia |].
              exists w. split; [| exact Hwne]. rewrite <- Hw. f_equal. lia.
        -- right. split; [reflexivity |]. intros [| k] _ Hk.
           ++ exists v. split; [| exact Hne]. rewrite <- Hu. f_equal. lia.
           ++ destruct (Hnone k) as (w & Hw & Hwne); [lia | lia |].
              exists w. split; [| exact Hwne]. rewrite <- Hw. f_equal. lia.
    + intros [= <-]. right. split; [reflexivity |]. intros k Hlo Hhi.
      apply andb_false_iff in Hin as [Hf%Z.leb_gt | Hf%Z.ltb_ge]; nia.
Qed.

End ScanStackSound.

(** X7: what [find_addr_on_stack] returns is never a wrong address: a
    returned value is either the address of a slot inside the page, a
    whole number of pointer-size steps above the stack pointer, that
    holds the target while no slot below it does, or it is 0 and every
    slot up to the page's upper bound was read and holds something
    else. *)
Theorem find_addr_on_stack_sound (h : Stack.Host) (s : Stack.State)
    (addr sp a : Z) (stack : Page) :
  0 < ptrsize (Stack.arch h) ->
  Stack.regs_sp h s = Ok (Some sp) ->
  Stack.vmmap_find h sp = Some stack ->
  Stack.find_addr_on_stack h s addr = Some (Ok a) ->
  (exists k : nat,
     a = sp + Z.of_nat k * ptrsize (Stack.arch h)
     /\ page_start stack <= a < page_end stack
     /\ Stack.mem_u h a = Ok addr
     /\ Stack.no_match_before (Stack.mem_u h) addr (ptrsize (Stack.arch h)) sp k)
  \/ (a = 0
      /\ forall k : nat,
           page_start stack <= sp ->
           sp + Z.of_nat k * ptrsize (Stack.arch h) < page_end stack ->
           exists v, Stack.mem_u h (sp + Z.of_nat k * ptrsize (Stack.arch h)) = Ok v
                     /\ v <> addr).
Proof.
  intros Hps Hsp Hmap. unfold Stack.find_addr_on_stack, page_start, page_end.
  rewrite Hsp, Hmap. now apply scan_stack_sound.
Qed.

Lemma find_addr_on_stack_sound_witness :
  Stack.find_addr_on_stack Samples.host_two_threads Samples.fresh_state 0xdeadbeef
    = Some (Ok 0x7ffd0020)
  /\ ((exists k : nat,
         0x7ffd0020 = 0x7ffd0010 + Z.of_nat k * 8
         /\ 0x7ffc0000 <= 0x7ffd0020 < 0x7ffc0000 + 0x18000
         /\ Stack.mem_u Samples.host_two_threads 0x7ffd0020 = Ok 0xdeadbeef
         /\ Stack.no_match_before (Stack.mem_u Samples.host_two_threads)
              0xdeadbeef 8 0x7ffd0010 k)
      \/ (0x7ffd0020 = 0
          /\ forall k : nat,
               0x7ffc0000 <= 0x7ffd0010 ->
               0x7ffd0010 + Z.of_nat k * 8 < 0x7ffc0000 + 0x18000 ->
               exists v, Stack.mem_u Samples.host_two_threads (0x7ffd0010 + Z.of_nat k * 8)
                         = Ok v /\ v <> 0xdeadbeef)).
Proof.
  assert (Hres : Stack.find_addr_on_stack Samples.host_two_threads Samples.fresh_state
                   0xdeadbeef = Some (Ok 0x7ffd0020)) by (vm_compute; reflexivity).
  split; [exact Hres |].
  exact (find_addr_on_stack_sound Samples.host_two_threads Samples.fresh_state
           0xdeadbeef 0x7ffd0010 0x7ffd0020
           (mkPage 0x7ffc0000 0x18000 6 0 (Some "[stack]"%string))
           eq_refl eq_refl eq_refl Hres).
Defined.

(** X8: a memory read that fails before the target has been seen is not
    swallowed: [find_addr_on_stack] raises that read's exception. *)
Theorem find_addr_on_stack_read_failure (h : Stack.Host) (s : Stack.State)
    (addr sp : Z) (stack : Page) (k : nat) (e : Exn) :
  0 < ptrsize (Stack.arch h) ->
  Stack.regs_sp h s = Ok (Some sp) ->
  Stack.vmmap_find h sp = Some stack ->
  page_start stack <= sp ->
  sp + Z.of_nat k * ptrsize (Stack.arch h) < page_end stack ->
  Stack.no_match_before (Stack.mem_u h) addr (ptrsize (Stack.arch h)) sp k ->
  Stack.mem_u h (sp + Z.of_nat k * ptrsize (Stack.arch h)) = Raise e ->
  Stack.find_addr_on_stack h s addr = Some (Raise e).
Proof.
  intros Hps Hsp Hmap Hlo Hhi Hbefore Hfail.
  unfold Stack.find_addr_on_stack. rewrite Hsp, Hmap.
  apply scan_stack_raise with k; try assumption. apply Nat.le_refl.
Qed.

Lemma find_addr_on_stack_read_failure_witness :
  0 < ptrsize (Stack.arch Samples.host_short_read)
  /\ Stack.mem_u Samples.host_short_read (0x7ffd7ff0 + Z.of_nat 2 * 8) = Raise MemoryError
  /\ Stack.find_addr_on_stack Samples.host_short_read Samples.fresh_state 0x1234
     = Some (Raise MemoryError).
Proof.
  split; [reflexivity |]. split; [reflexivity |].
  apply (find_addr_on_stack_read_failure Samples.host_short_read Samples.fresh_state
           0x1234 0x7ffd7ff0 (mkPage 0x7ffc0000 0x20000 6 0 (Some "[stack]"%string))
           2%nat MemoryError);
    [reflexivity | reflexivity | reflexivity | vm_compute; discriminate
    | reflexivity | | reflexivity].
  intros j Hj. exists 0.
  destruct j as [| [| j]]; [split; [reflexivity | discriminate] .. | lia].
Defined.

(** When the stack pointer does not lie inside the page found for it,
    [find_addr_on_stack] returns 0 at once, whatever memory holds. *)
Theorem find_addr_on_stack_outside (h : Stack.Host) (s : Stack.State)
    (addr sp : Z) (stack : Page) :
  Stack.regs_sp h s = Ok (Some sp) ->
  Stack.vmmap_find h sp = Some stack ->
  page_contains stack sp = false ->
  Stack.find_addr_on_stack h s addr = Some (Ok 0).
Proof.
  intros Hsp Hmap Hout. unfold Stack.find_addr_on_stack. rewrite Hsp, Hmap.
  apply scan_stack_outside. unfold page_contains, page_start, page_end in Hout.
  apply andb_false_iff in Hout as [Hf%Z.leb_gt | Hf%Z.ltb_ge]; lia.
Qed.

Lemma find_addr_on_stack_outside_witness :
  page_contains (mkPage 0x1000 0x1000 6 0 None) 0x7ffd0010 = false
  /\ Stack.find_addr_on_stack Samples.host_stale_map Samples.fresh_state 0xdeadbeef
     = Some (Ok 0).
Proof.
  split; [reflexivity |].
  apply (find_addr_on_stack_outside Samples.host_stale_map Samples.fresh_state
           0xdeadbeef 0x7ffd0010 (mkPage 0x1000 0x1000 6 0 None)); reflexivity.
Defined.

(** ** Outcomes of the canary command *)

(** X9: the command reports a missing AT_RANDOM by its own error line:
    that line is printed, alone and without an exception, exactly when
    the auxiliary vector has no AT_RANDOM entry; a failing read of the
    AT_RANDOM word is raised before anything is printed. *)
Theorem canary_outcomes (e : Canary.Env) (all : bool) :
  (Canary.auxv e !! "AT_RANDOM"%string = None ->
   Canary.canary e all = ([Canary.ErrorNoAtRandom], None))
  /\ (forall at_random x,
        Canary.auxv e !! "AT_RANDOM"%string = Some at_random ->
        Canary.pvoid e at_random = Raise x ->
        Canary.canary e all = ([], Some x))
  /\ (In Canary.ErrorNoAtRandom (fst (Canary.canary e all))
      <-> Canary.auxv e !! "AT_RANDOM"%string = None).
Proof.
  unfold Canary.canary, Canary.canary_value.
  destruct (Canary.auxv e !! "AT_RANDOM"%string) as [a |] eqn:Haux.
  - split; [discriminate |]. split.
    + intros a' x [= <-] ->. reflexivity.
    + split; [| discriminate].
      destruct (Canary.pvoid e a) as [v |]; [| contradiction].
      destruct (Canary.pack e _); simpl;
        intros [H | [H | []]]; discriminate.
  - split; [reflexivity |]. split; [discriminate |].
    split; [reflexivity | intros _; now left].
Qed.

Lemma canary_outcomes_witness :
  Canary.auxv Samples.env_five_matches !! "AT_RANDOM"%string = Some 0x7ffe1000
  /\ ~ In Canary.ErrorNoAtRandom (fst (Canary.canary Samples.env_five_matches false)).
Proof.
  split; [reflexivity |]. intros Hin.
  destruct (canary_outcomes Samples.env_five_matches false) as (_ & _ & Herr).
  apply Herr in Hin. discriminate.
Defined.

(** ** The range of the canary value *)

Lemma canary_mask_value (a : Arch) :
  arch_wf a -> Z.lxor (ptrmask a) 0xFF = ptrmask a - 0xFF.
Proof.
  intros Hwf.
  assert (Hdisj : Z.land (Z.lxor (ptrmask a) 0xFF) 0xFF = 0).
  { apply Z.bits_inj'. intros i Hi.
    rewrite Z.land_spec, (canary_mask_bit a i Hwf Hi), Z.bits_0, byte_ones.
    destruct (Z.ltb_spec i 8).
    - destruct (Z.leb_spec 8 i); [lia | reflexivity].
    - rewrite Z.ones_spec_high by lia. apply andb_false_r. }
  apply Z.add_nocarry_lxor in Hdisj.
  rewrite Z.lxor_assoc, Z.lxor_nilpotent, Z.lxor_0_r in Hdisj. lia.
Qed.

Lemma land_le_mask (v m : Z) : 0 <= m -> 0 <= Z.land v m <= m.
Proof.
  intros Hm. split; [apply Z.land_nonneg; now right |].
  pose proof (Z.sub_land_same_l m v) as Hsub.
  assert (0 <= Z.land m (Z.lnot v)) by (apply Z.land_nonneg; now left).
  rewrite (Z.land_comm v m). lia.
Qed.

(** X11: whatever the memory read returns, the masked canary fits in a
    pointer with its low byte clear: it lies between 0 and
    [ptrmask - 0xFF]. *)
Theorem canary_value_range (e : Canary.Env) (masked : Z) (src : option Z) :
  arch_wf (Canary.arch e) ->
  Canary.canary_value e = Ok (Some masked, src) ->
  0 <= masked <= ptrmask (Canary.arch e) - 0xFF.
Proof.
  intros Hwf. unfold Canary.canary_value.
  destruct (Canary.auxv e !! "AT_RANDOM"%string) as [a |]; [| discriminate].
  destruct (Canary.pvoid e a) as [v |]; [| discriminate].
  intros [= <- _]. rewrite (canary_mask_value _ Hwf).
  apply land_le_mask. destruct Hwf as [Hps ->].
  assert (2 ^ 8 <= 2 ^ (8 * ptrsize (Canary.arch e)))
    by (apply Z.pow_le_mono_r; lia).
  change (2 ^ 8) with 256 in *. lia.
Qed.

Lemma canary_value_range_witness :
  arch_wf (Canary.arch Samples.env_at_random)
  /\ Canary.canary_value Samples.env_at_random
     = Ok (Some 0x4141414141414100, Some 0x7ffe1000)
  /\ 0 <= 0x4141414141414100 <= ptrmask (Canary.arch Samples.env_at_random) - 0xFF.
Proof.
  assert (Hwf : arch_wf (Canary.arch Samples.env_at_random))
    by (split; reflexivity).
  split; [exact Hwf |]. split; [reflexivity |].
  exact (canary_value_range Samples.env_at_random _ _ Hwf eq_refl).
Defined.

(** X12: the low byte of the word at AT_RANDOM does not matter: two
    processes that differ only in what the read returns, and whose words
    agree above the low byte, have the same canary. *)
Theorem canary_value_ignores_low_byte (e1 e2 : Canary.Env) (at_random v1 v2 : Z) :
  arch_wf (Canary.arch e1) ->
  Canary.arch e2 = Canary.arch e1 ->
  Canary.auxv e1 !! "AT_RANDOM"%string = Some at_random ->
  Canary.auxv e2 !! "AT_RANDOM"%string = Some at_random ->
  Canary.pvoid e1 at_random = Ok v1 ->
  Canary.pvoid e2 at_random = Ok v2 ->
  v1 / 256 = v2 / 256 ->
  Canary.canary_value e1 = Canary.canary_value e2.
Proof.
  intros Hwf Harch Ha1 Ha2 Hv1 Hv2 Hhigh. unfold Canary.canary_value.
  rewrite Ha1, Ha2, Hv1, Hv2, Harch. do 3 f_equal.
  apply Z.bits_inj'. intros i Hi.
  rewrite !Z.land_spec, (canary_mask_bit _ i Hwf Hi).
  destruct (Z.leb_spec 8 i) as [Hge | Hlt]; [| now rewrite !andb_false_r].
  f_equal. replace i with (i - 8 + 8) by lia.
  rewrite <- !Z.shiftr_spec by lia. rewrite !Z.shiftr_div_pow2 by lia.
  change (2 ^ 8) with 256. now rewrite Hhigh.
Qed.

Lemma canary_value_ignores_low_byte_witness :
  arch_wf (Canary.arch Samples.env_at_random)
  /\ 0x41414141414141AB / 256 = 0x4141414141414107 / 256
  /\ Canary.canary_value Samples.env_at_random
     = Canary.canary_value Samples.env_other_low_byte.
Proof.
  assert (Hwf : arch_wf (Canary.arch Samples.env_at_random))
    by (split; reflexivity).
  split; [exact Hwf |]. split; [reflexivity |].
  exact (canary_value_ignores_low_byte Samples.env_at_random Samples.env_other_low_byte
           0x7ffe1000 0x41414141414141AB 0x4141414141414107
           Hwf eq_refl eq_refl eq_refl eq_refl eq_refl eq_refl).
Defined.

(** ** The [nx] global *)

Lemma nx_follows_refl h s : nx_follows h s s.
Proof. left. split; auto. Qed.

Lemma nx_follows_trans h s0 s1 s2 :
  dict_grown (Stack.stacks s0) (Stack.stacks s1) ->
  dict_grown (Stack.stacks s1) (Stack.stacks s2) ->
  nx_follows h s0 s1 -> nx_follows h s1 s2 -> nx_follows h s0 s2.
Proof.
  intros G01 G12 [[Hn1 Hk1] | [Hn1 (k & Hk0 & Hk1)]] [[Hn2 Hk2] | [Hn2 (k' & Hk1' & Hk2)]].
  - left. split; [congruence | auto].
  - right. split; [exact Hn2 |]. exists k'. split; [| exact Hk2].
    destruct (Stack.dict_get k' (Stack.stacks s0)) as [p |] eqn:E; [| reflexivity].
    destruct (G01 _ _ E) as (q & Hq & _). congruence.
  - right. split; [congruence |]. exists k. split; [exact Hk0 |].
    destruct (Stack.dict_get k (Stack.stacks s1)) as [p |] eqn:E; [| contradiction].
    destruct (G12 _ _ E) as (q & -> & _). discriminate.
  - right. split; [exact Hn2 |]. exists k. split; [exact Hk0 |].
    destruct (Stack.dict_get k (Stack.stacks s1)) as [p |] eqn:E; [| contradiction].
    destruct (G12 _ _ E) as (q & -> & _). discriminate.
Qed.

Lemma update_thread_nx h t s :
  nx_follows h s (fst (Stack.update_thread h t s)).
Proof.
  unfold Stack.update_thread, Stack.switch.
  destruct (Stack.thread_valid t); [| apply nx_follows_refl].
  destruct (Stack.regs_sp h _) as [[sp |] |]; try (left; split; auto; fail).
  destruct (sp =? 0); [left; split; auto |].
  simpl Stack.stacks.
  destruct (Stack.dict_get (Stack.thread_ptid t) (Stack.stacks s)) as [page |] eqn:Hget.
  - left. simpl. split; [reflexivity |]. intros k Hk.
    rewrite dict_get_set_ne; [exact Hk | congruence].
  - right. rewrite is_executable_has_gnu_stack. simpl. split; [reflexivity |].
    exists (Stack.thread_ptid t). split; [exact Hget |].
    rewrite dict_get_set_eq. discriminate.
Qed.

Lemma update_loop_nx h ts : forall s,
  nx_follows h s (fst (Stack.update_loop h ts s)).
Proof.
  induction ts as [| t ts IH]; intros s; simpl; [apply nx_follows_refl |].
  pose proof (update_thread_nx h t s) as Hstep.
  pose proof (update_thread_grown h t s) as Hg.
  destruct (Stack.update_thread h t s) as [s' [e |]]; simpl in *; [exact Hstep |].
  eapply nx_follows_trans; [exact Hg | apply update_loop_grown | exact Hstep | apply IH].
Qed.

Lemma update_nx_loop h s :
  Stack.nx (fst (Stack.update h s))
  = Stack.nx (fst (Stack.update_loop h (Stack.threads h) s)).
Proof.
  unfold Stack.update.
  destruct (Stack.update_loop h (Stack.threads h) s) as [s' e]. simpl.
  destruct (Stack.selected s) as [c |]; [| reflexivity].
  unfold Stack.switch. destruct (Stack.thread_valid c); destruct e; reflexivity.
Qed.

(** X13: [update] refreshes the [nx] global exactly when it records a
    thread it did not know: if no new ptid appears in the map the flag
    keeps its value, and if one does the flag says whether a
    PT_GNU_STACK header exists. *)
Theorem update_nx (h : Stack.Host) (s : Stack.State) :
  ((forall ptid, Stack.dict_get ptid (Stack.stacks s) = None ->
                 Stack.dict_get ptid (Stack.stacks (fst (Stack.update h s))) = None) ->
   Stack.nx (fst (Stack.update h s)) = Stack.nx s)
  /\ ((exists ptid, Stack.dict_get ptid (Stack.stacks s) = None
                    /\ Stack.dict_get ptid (Stack.stacks (fst (Stack.update h s))) <> None) ->
      Stack.nx (fst (Stack.update h s)) = Stack.has_gnu_stack h).
Proof.
  rewrite update_nx_loop, update_stacks.
  destruct (update_loop_nx h (Stack.threads h) s) as [[Hn Hk] | [Hn (k & Hk0 & Hk1)]].
  - split; [intros _; exact Hn |].
    intros (k & Hk0 & Hk1). now contradiction Hk1; apply Hk.
  - split; [| intros _; exact Hn].
    intros Hnone. now contradiction Hk1; apply Hnone.
Qed.

Lemma update_nx_witness :
  (exists ptid, Stack.dict_get ptid (Stack.stacks Samples.fresh_state) = None
                /\ Stack.dict_get ptid
                     (Stack.stacks (fst (Stack.update Samples.host_two_threads
                                           Samples.fresh_state))) <> None)
  /\ Stack.nx (fst (Stack.update Samples.host_two_threads Samples.fresh_state))
     = Stack.has_gnu_stack Samples.host_two_threads.
Proof.
  assert (Hnew : exists ptid,
            Stack.dict_get ptid (Stack.stacks Samples.fresh_state) = None
            /\ Stack.dict_get ptid
                 (Stack.stacks (fst (Stack.update Samples.host_two_threads
                                       Samples.fresh_state))) <> None).
  { exists (4242, 4242, 0). split; [reflexivity | vm_compute; discriminate]. }
  split; [exact Hnew |].
  exact (proj2 (update_nx Samples.host_two_threads Samples.fresh_state) Hnew).
Defined.

(** ** current *)

Lemma update_selected_valid h s c :
  Stack.selected s = Some c -> Stack.thread_valid c = true ->
  Stack.selected (fst (Stack.update h s)) = Some c.
Proof.
  intros Hsel Hvalid. unfold Stack.update. rewrite Hsel.
  destruct (Stack.update_loop h (Stack.threads h) s) as [s' e].
  unfold Stack.switch. rewrite Hvalid. destruct e; reflexivity.
Qed.

(** X14: the first [current()] of a session: with nothing tracked yet,
    [current] reads the selected thread's stack pointer, lets [find] run
    [update], and, when no thread fails and the pointer's own page is
    readable (or the ABI is not Linux), returns a page containing that
    pointer, with the same thread selected afterwards. *)
Theorem current_first_call (h : Stack.Host) (s : Stack.State)
    (t : Stack.Thread) (sp : Z) :
  Stack.stacks s = [] ->
  Stack.selected s = Some t ->
  In t (Stack.threads h) ->
  NoDup (map Stack.thread_ptid (Stack.threads h)) ->
  first_error h (Stack.threads h) = None ->
  Stack.read_sp h (Some t) = Ok (Some sp) -> sp <> 0 ->
  Stack.linux h = false \/ Stack.readable h (Stack.page_align sp) = true ->
  exists q, current h s = (fst (Stack.update h s), Ok (Some q))
            /\ page_contains q sp = true
            /\ Stack.selected (fst (Stack.update h s)) = Some t.
Proof.
  intros Hempty Hsel Hin Hnd Hok Hsp Hnz Hcase.
  assert (Hvalid : Stack.thread_valid t = true)
    by (apply (proj1 (first_error_None h _) Hok t Hin)).
  assert (Hloop : snd (Stack.update_loop h (Stack.threads h) s) = None)
    by (now rewrite update_loop_error).
  assert (Hupd : snd (Stack.update h s) = None).
  { unfold Stack.update. rewrite Hsel.
    destruct (Stack.update_loop h (Stack.threads h) s) as [s' e]. simpl in Hloop.
    subst e. unfold Stack.switch. now rewrite Hvalid. }
  assert (Hnone : Stack.dict_get (Stack.thread_ptid t) (Stack.stacks s) = None)
    by (now rewrite Hempty).
  pose proof (update_loop_tracks h t sp _ s Hloop Hin Hsp Hnz) as Htr.
  destruct (Stack.dict_get (Stack.thread_ptid t)
              (Stack.stacks (fst (Stack.update_loop h (Stack.threads h) s))))
    as [p |] eqn:Hp; [| contradiction].
  destruct (update_loop_creates h _ _ s p Hnd Hnone Hp)
    as (t' & sp' & Hin' & Hptid & Hsp' & _ & ->).
  assert (t' = t) as -> by (eapply NoDup_map_In_inj; eassumption).
  assert (sp' = sp) as -> by congruence.
  destruct (new_page_contains h sp Hcase) as (_ & _ & Hc).
  rewrite <- update_stacks in Hp.
  destruct (first_containing_In sp _ _ (dict_get_values _ _ _ Hp) Hc) as [q Hq].
  exists q. split; [| split].
  - unfold current, Stack.regs_sp. rewrite Hsel, Hsp.
    unfold Stack.find. rewrite Hempty.
    destruct (Stack.update h s) as [s' e]. simpl in *. subst e. now rewrite Hq.
  - now apply first_containing_Some in Hq.
  - now apply update_selected_valid.
Qed.

Lemma current_first_call_witness :
  Stack.stacks Samples.fresh_state = []
  /\ NoDup (map Stack.thread_ptid (Stack.threads Samples.host_two_threads))
  /\ first_error Samples.host_two_threads (Stack.threads Samples.host_two_threads) = None
  /\ exists q, current Samples.host_two_threads Samples.fresh_state
               = (fst (Stack.update Samples.host_two_threads Samples.fresh_state),
                  Ok (Some q))
               /\ page_contains q 0x7ffd0010 = true
               /\ Stack.selected (fst (Stack.update Samples.host_two_threads
                                         Samples.fresh_state))
                  = Some Samples.main_thread.
Proof.
  assert (Hnd : NoDup (map Stack.thread_ptid (Stack.threads Samples.host_two_threads))).
  { apply (bool_decide_unpack _). vm_compute. exact I. }
  split; [reflexivity |]. split; [exact Hnd |]. split; [reflexivity |].
  apply (current_first_call Samples.host_two_threads Samples.fresh_state
           Samples.main_thread 0x7ffd0010);
    [reflexivity | reflexivity | left; reflexivity | exact Hnd | reflexivity
    | reflexivity | discriminate | right; reflexivity].
Defined.
